(** * A calculator API in Express: validation middleware and routes

    Shallow embedding of [app.js] and of the code blocks of [README.md]:
    routes/add.js, the first versions of lib/add.js and lib/subtract.js,
    and the validation middleware that the README asks to add to app.js.

    - JavaScript Numbers are IEEE-754 binary64 values ([spec_float] with
      a 53-bit significand and round to nearest even), so [parseInt],
      [+] and [-] round as the language does.
    - Strings are [string]s whose characters stand for the code units
      U+0000 to U+00FF.
    - [req.query] maps parameter names to strings; a parameter given
      several times or with brackets, which the query parser turns into
      an array or an object, is outside the model.
    - The properties that handlers attach to [req] are a finite map.
    - A handler is a function of the request and response objects that
      either ends the response or calls [next]; none of the handlers
      throws on these inputs.
    - The router follows Express with its default settings: a route
      takes its path in any case of the letters and with or without a
      slash at the end, a GET route also serves HEAD, and an OPTIONS
      request for the path of a route is answered by Express itself.
    - Between requests the process holds the variables of the modules;
      [run] threads it through the handlers, request after request.
    - [app.listen] and the unused binding [subtract] of app.js are left
      out. *)

From Stdlib Require Import ZArith String Ascii List Lia Bool SpecFloat.
From stdpp Require Import gmap strings.

Local Open Scope Z_scope.

(** ** The JavaScript primitives the program uses *)

Module JS.

(** The Number type: binary64. *)
Definition number : Type := spec_float.

Definition NaN : number := S754_nan.
Definition pos_zero : number := S754_zero false.
Definition neg_zero : number := S754_zero true.

(** The Number value for a mathematical integer (round to nearest,
    ties to even). *)
Definition of_int (z : Z) : number := binary_normalize 53 1024 z 0 false.

(** Number::add and Number::subtract. *)
Definition number_add (x y : number) : number := SFadd 53 1024 x y.
Definition number_subtract (x y : number) : number := SFsub 53 1024 x y.

(** ToBoolean on a Number: [!a] is [negb (ToBoolean a)]. *)
Definition ToBoolean (x : number) : bool :=
  match x with
  | S754_zero _ | S754_nan => false
  | S754_infinity _ | S754_finite _ _ _ => true
  end.

Definition isNaN (x : number) : bool :=
  match x with
  | S754_nan => true
  | _ => false
  end.

Definition is_zero (x : number) : bool :=
  match x with
  | S754_zero _ => true
  | _ => false
  end.

(** The values that reach the arithmetic functions: a property that
    was never set reads as [undefined]. *)
Inductive value : Type :=
| Undefined
| Num (n : number).

Definition ToNumber (v : value) : number :=
  match v with
  | Undefined => NaN
  | Num n => n
  end.

(** ToString of a query parameter: a missing one is [undefined]. *)
Definition ToString (v : option string) : string :=
  match v with
  | Some s => s
  | None => "undefined"
  end.

(** WhiteSpace and LineTerminator code units below U+0100. *)
Definition is_white_space (c : ascii) : bool :=
  let n := Z.of_N (N_of_ascii c) in
  ((9 <=? n) && (n <=? 13)) || (n =? 32) || (n =? 160).

Fixpoint trim_start (s : string) : string :=
  match s with
  | String c rest => if is_white_space c then trim_start rest else s
  | EmptyString => s
  end.

(** The value of a code unit as a digit: 0-9, then a-z and A-Z for
    10 to 35. *)
Definition digit_value (c : ascii) : option Z :=
  let n := Z.of_N (N_of_ascii c) in
  if (48 <=? n) && (n <=? 57) then Some (n - 48)
  else if (97 <=? n) && (n <=? 122) then Some (n - 87)
  else if (65 <=? n) && (n <=? 90) then Some (n - 55)
  else None.

Definition radix_digit (R : Z) (c : ascii) : option Z :=
  match digit_value c with
  | Some d => if d <? R then Some d else None
  | None => None
  end.

(** The digits of the longest prefix of [s] made of radix-[R] digits. *)
Fixpoint digit_prefix (R : Z) (s : string) : list Z :=
  match s with
  | String c rest =>
      match radix_digit R c with
      | Some d => d :: digit_prefix R rest
      | None => []
      end
  | EmptyString => []
  end.

(** The integer a digit list denotes in radix [R]. *)
Definition digits_int (R : Z) (ds : list Z) : Z :=
  fold_left (fun acc d => acc * R + d) ds 0.

(** A leading [-] or [+] is removed; [true] stands for [-]. *)
Definition strip_sign (s : string) : bool * string :=
  match s with
  | String c rest =>
      if Ascii.eqb c "-" then (true, rest)
      else if Ascii.eqb c "+" then (false, rest)
      else (false, s)
  | EmptyString => (false, s)
  end.

(** A leading [0x] or [0X] is removed and selects radix 16; the radix
    is 10 otherwise. *)
Definition strip_hex_prefix (s : string) : Z * string :=
  match s with
  | String c0 (String c1 rest) =>
      if (Ascii.eqb c0 "0" && (Ascii.eqb c1 "x" || Ascii.eqb c1 "X"))%bool
      then (16, rest) else (10, s)
  | _ => (10, s)
  end.

(** [parseInt(string)] with no radix argument. *)
Definition parseInt (input : string) : number :=
  let '(negative, s) := strip_sign (trim_start input) in
  let '(R, s) := strip_hex_prefix s in
  match digit_prefix R s with
  | [] => NaN
  | ds =>
      let mathInt := digits_int R ds in
      if mathInt =? 0 then (if negative then neg_zero else pos_zero)
      else of_int (if negative then - mathInt else mathInt)
  end.

End JS.

Import JS.

(** ** The Express objects the program touches *)

(** The request methods: the ones named, and [OtherMethod] for any
    method that is none of them. *)
Inductive http_method : Type :=
| GET | HEAD | POST | PUT | DELETE | PATCH | OPTIONS | OtherMethod.

(** A request as it arrives: method, path name and parsed query string. *)
Record incoming : Type := Incoming {
  in_method : http_method;
  in_path : string;
  in_query : gmap string string
}.

(** The [req] object. [props] holds the properties that handlers attach
    to it ([req.a], [req.b]). *)
Record request : Type := Request {
  method : http_method;
  path : string;
  query : gmap string string;
  props : gmap string value
}.

(** A JSON object is the list of its members; the members this program
    writes are numbers or null. *)
Inductive json_value : Type :=
| JNull
| JNumber (n : number).

Definition json_object : Type := list (string * json_value).

(** What is handed to [res]: a text, a JSON object, the page of the
    final handler, or the list of methods that Express sends as Allow
    header and as body in its own answer to an OPTIONS request. *)
Inductive payload : Type :=
| Text (s : string)
| Json (obj : json_object)
| NotFoundPage
| Allow (methods : list string).

(** The [res] object: the status code starts at 200 and nothing has been
    written. [body] is what the handlers hand to [res]; to a HEAD
    request Node sends the head of the response without it. *)
Record response : Type := Response {
  statusCode : Z;
  body : option payload
}.

Definition fresh_request (r : incoming) : request :=
  {| method := in_method r; path := in_path r; query := in_query r; props := ∅ |}.

Definition fresh_response : response :=
  {| statusCode := 200; body := None |}.

(** [req.name] and [req.name = v]. *)
Definition get_prop (req : request) (name : string) : value :=
  match props req !! name with
  | Some v => v
  | None => Undefined
  end.

Definition set_prop (name : string) (v : value) (req : request) : request :=
  {| method := method req; path := path req; query := query req;
     props := <[name := v]> (props req) |}.

(** [res.status(code)], [res.end(text)] and [res.json(obj)], on a [res]
    to which nothing has been written yet. A handler of this program
    always gets such a [res]: the one handler that calls [next] leaves
    [res] alone, and every write ends the response. *)
Definition res_status (code : Z) (res : response) : response :=
  {| statusCode := code; body := body res |}.

Definition res_end (text : string) (res : response) : response :=
  {| statusCode := statusCode res; body := Some (Text text) |}.

(** JSON.stringify of [{ result : v }]: an undefined property is left
    out, NaN and the infinities are written as null, and -0 as 0. *)
Definition json_number (n : number) : json_value :=
  match n with
  | S754_zero _ => JNumber pos_zero
  | S754_finite _ _ _ => JNumber n
  | S754_nan | S754_infinity _ => JNull
  end.

Definition result_object (v : value) : json_object :=
  match v with
  | Undefined => []
  | Num n => [("result"%string, json_number n)]
  end.

Definition res_json (obj : json_object) (res : response) : response :=
  {| statusCode := statusCode res; body := Some (Json obj) |}.

(** What a handler does with [(req, res, next)]: it ends the response,
    or it calls [next()] with the objects as it left them. *)
Inductive step : Type :=
| Responded (res : response)
| CallNext (req : request) (res : response).

Definition handler : Type := request -> response -> step.

(** The three stages of the pipeline. *)
Inductive stage : Type := Validation | RouteAdd | RouteSubtract.

(** Where a layer is mounted: [app.use(fn)] takes every method and
    every path, [app.get(p, fn)] the GET requests for the path [p]. *)
Inductive mount : Type :=
| Everywhere
| GetRoute (p : string).

(** A layer of the router stack. *)
Record layer : Type := Layer {
  name : stage;
  mounted : mount;
  handle : handler
}.

Definition use (n : stage) (fn : handler) : layer :=
  {| name := n; mounted := Everywhere; handle := fn |}.

Definition get (n : stage) (p : string) (fn : handler) : layer :=
  {| name := n; mounted := GetRoute p; handle := fn |}.

(** Express turns the path of a route into the regular expression
    [^p\/?$] with the flag [i] (routing is neither case sensitive nor
    strict by default). Under [i] two code units match when they have
    the same canonical form: the upper case of a letter, except that a
    code unit above 127 is never taken to one below 128. Of the code
    units below 256, U+00FF and U+00B5 have their upper case outside
    that range, and U+00DF has none of one code unit. *)
Definition canonicalize (c : ascii) : Z :=
  let n := Z.of_N (N_of_ascii c) in
  if (97 <=? n) && (n <=? 122) then n - 32
  else if (224 <=? n) && (n <=? 254) && negb (n =? 247) then n - 32
  else if n =? 255 then 376
  else if n =? 181 then 924
  else n.

Fixpoint same_ignoring_case (s t : string) : bool :=
  match s, t with
  | EmptyString, EmptyString => true
  | String c s', String d t' =>
      (canonicalize c =? canonicalize d) && same_ignoring_case s' t'
  | _, _ => false
  end.

(** The path of a route is a plain one here (/add, /subtract): no
    pattern character and no slash at its end. *)
Definition path_matches (p url : string) : bool :=
  same_ignoring_case url p || same_ignoring_case url (p +:+ "/").

(** A GET route handles GET, and HEAD as it has no handler for HEAD of
    its own; these are the methods it lists for OPTIONS. *)
Definition route_options : list string := ["GET"; "HEAD"]%string.

Definition append_methods (options addition : list string) : list string :=
  fold_left
    (fun acc m => if existsb (String.eqb m) acc then acc else acc ++ [m])
    addition options.

(** What the router does at a layer: [None] when the layer is to run,
    or the methods collected so far when the router goes on to the
    next layer. A route whose path matches an OPTIONS request adds its
    methods to them. *)
Definition visit (m : mount) (options : list string) (req : request)
  : option (list string) :=
  match m with
  | Everywhere => None
  | GetRoute p =>
      if path_matches p (path req) then
        match method req with
        | GET | HEAD => None
        | OPTIONS => Some (append_methods options route_options)
        | _ => Some options
        end
      else Some options
  end.

(** The response Express gives when no layer ends the request: its own
    answer to an OPTIONS request for which routes were found, and the
    page of the final handler otherwise. *)
Definition finalhandler (res : response) : response :=
  {| statusCode := 404; body := Some NotFoundPage |}.

Definition send_options (options : list string) (res : response) : response :=
  {| statusCode := statusCode res; body := Some (Allow options) |}.

Definition unanswered (options : list string) (req : request)
    (res : response) : response :=
  match method req, options with
  | OPTIONS, _ :: _ => send_options options res
  | _, _ => finalhandler res
  end.

(** One pass of a request through the stack: the stages that ran, in
    order, and the response. *)
Fixpoint dispatch_from (options : list string) (stack : list layer)
    (req : request) (res : response) : list stage * response :=
  match stack with
  | [] => ([], unanswered options req res)
  | l :: rest =>
      match visit (mounted l) options req with
      | None =>
          match handle l req res with
          | Responded res' => ([name l], res')
          | CallNext req' res' =>
              let '(ran, out) := dispatch_from options rest req' res' in
              (name l :: ran, out)
          end
      | Some options' => dispatch_from options' rest req res
      end
  end.

Definition dispatch (stack : list layer) (req : request) (res : response)
  : list stage * response :=
  dispatch_from [] stack req res.

Definition respond (stack : list layer) (r : incoming) : list stage * response :=
  dispatch stack (fresh_request r) fresh_response.

(** The server answers the requests of a connection log one by one. *)
Definition serve (stack : list layer) (log : list incoming) : list response :=
  map (fun r => snd (respond stack r)) log.

(** ** What outlives a request *)

(** Node keeps the modules of the program loaded between requests, and
    a handler can read and assign what its module has in scope:
    routes/add.js holds [add], routes/subtract.js holds [subtract], and
    [globals] stands for every other variable within reach. *)
Record process : Type := Process {
  add_binding : value -> value -> value;
  subtract_binding : value -> value -> value;
  globals : gmap string value
}.

(** A handler as Node runs it: on the process as the requests before
    left it, which it hands on as it leaves it. *)
Definition process_handler : Type :=
  process -> request -> response -> process * step.

Record process_layer : Type := ProcessLayer {
  layer_name : stage;
  layer_mounted : mount;
  layer_handle : process_handler
}.

Fixpoint process_dispatch (options : list string) (stack : list process_layer)
    (w : process) (req : request) (res : response)
  : process * (list stage * response) :=
  match stack with
  | [] => (w, ([], unanswered options req res))
  | l :: rest =>
      match visit (layer_mounted l) options req with
      | None =>
          match layer_handle l w req res with
          | (w', Responded res') => (w', ([layer_name l], res'))
          | (w', CallNext req' res') =>
              let '(w'', (ran, out)) :=
                process_dispatch options rest w' req' res' in
              (w'', (layer_name l :: ran, out))
          end
      | Some options' => process_dispatch options' rest w req res
      end
  end.

(** The server takes the requests one by one, each with a [req] and a
    [res] of its own, on the process as the request before left it. *)
Fixpoint run (stack : list process_layer) (w : process) (log : list incoming)
  : list response * process :=
  match log with
  | [] => ([], w)
  | r :: later =>
      let '(w', (_, out)) :=
        process_dispatch [] stack w (fresh_request r) fresh_response in
      let '(outs, w'') := run stack w' later in
      (out :: outs, w'')
  end.

(** A layer that hands the process on as it got it does what a layer of
    the pipeline does. *)
Definition settled (w : process) (pl : process_layer) (l : layer) : Prop :=
  layer_name pl = name l /\ layer_mounted pl = mounted l /\
  forall req res, layer_handle pl w req res = (w, handle l req res).

(** ** The program *)

(** README.md, lines 106-107: the first versions of lib/add.js and
    lib/subtract.js, [function(){ return 0; }]. *)
Definition add_stub (a b : value) : value := Num pos_zero.
Definition subtract_stub (a b : value) : value := Num pos_zero.

(** Modelled from the spec: lib/add.js as finished. The repository
    only shows the stub above and the unit tests of the finished
    function; the spec says [add(a, b)] returns the arithmetic sum,
    which is [a + b] on the two operands as Numbers. *)
Definition add (a b : value) : value :=
  Num (number_add (ToNumber a) (ToNumber b)).

(** Modelled from the spec: lib/subtract.js as finished, of which the
    repository only shows the stub above; the spec says
    [subtract(a, b)] returns the arithmetic difference [a - b]. *)
Definition subtract (a b : value) : value :=
  Num (number_subtract (ToNumber a) (ToNumber b)).

(** README.md, lines 122-131: the validation middleware. *)
Definition validation_message : string :=
  "You must specify two numbers as query params, A and B".

Definition validation : handler := fun req res =>
  let a := parseInt (ToString (query req !! "a"%string)) in
  let b := parseInt (ToString (query req !! "b"%string)) in
  if (negb (ToBoolean a) || negb (ToBoolean b) || isNaN a || isNaN b)%bool then
    Responded (res_end validation_message (res_status 422 res))
  else
    CallNext (set_prop "b" (Num b) (set_prop "a" (Num a) req)) res.

(** The same middleware with the shorter condition [!a || !b]. *)
Definition validation_short : handler := fun req res =>
  let a := parseInt (ToString (query req !! "a"%string)) in
  let b := parseInt (ToString (query req !! "b"%string)) in
  if (negb (ToBoolean a) || negb (ToBoolean b))%bool then
    Responded (res_end validation_message (res_status 422 res))
  else
    CallNext (set_prop "b" (Num b) (set_prop "a" (Num a) req)) res.

Section Routes.

(** [require('../lib/add')] and [require('../lib/subtract')]. *)
Variables lib_add lib_subtract : value -> value -> value.

(** README.md, lines 112-115: routes/add.js. *)
Definition routes_add : handler := fun req res =>
  Responded (res_json (result_object (lib_add (get_prop req "a") (get_prop req "b"))) res).

(** Modelled from the spec: routes/subtract.js, which the README leaves
    to the reader as the counterpart of routes/add.js; the spec has
    the handler call the arithmetic function on the two operands and
    answer 200 with [{ result }]. *)
Definition routes_subtract : handler := fun req res =>
  Responded (res_json (result_object (lib_subtract (get_prop req "a") (get_prop req "b"))) res).

(** app.js: the two routes, and nothing in front of them. *)
Definition app : list layer :=
  [ get RouteAdd "/add" routes_add;
    get RouteSubtract "/subtract" routes_subtract ].

(** app.js once the middleware is added in front of the routes, as
    README.md line 120 asks. *)
Definition app_with_validation : list layer :=
  use Validation validation :: app.

End Routes.

(** The handlers as Node runs them. The middleware refers to nothing
    but its arguments; the handler of routes/add.js calls what its
    module holds as [add] when the request comes, and the one of
    routes/subtract.js what its module holds as [subtract]. None of
    them assigns a variable. *)
Definition validation_running : process_handler := fun w req res =>
  (w, validation req res).

Definition routes_add_running : process_handler := fun w req res =>
  (w, routes_add (add_binding w) req res).

Definition routes_subtract_running : process_handler := fun w req res =>
  (w, routes_subtract (subtract_binding w) req res).

Definition running_app : list process_layer :=
  [ ProcessLayer RouteAdd (GetRoute "/add") routes_add_running;
    ProcessLayer RouteSubtract (GetRoute "/subtract") routes_subtract_running ].

Definition running_app_with_validation : list process_layer :=
  ProcessLayer Validation Everywhere validation_running :: running_app.

(** The process once the modules are loaded. *)
Definition loaded (lib_add lib_subtract : value -> value -> value) : process :=
  {| add_binding := lib_add; subtract_binding := lib_subtract; globals := empty |}.

(** For contrast, a middleware that is not part of the program: it
    counts the requests in a variable of its module and answers with
    the count. *)
Definition counting : process_handler := fun w req res =>
  let seen :=
    match globals w !! "count"%string with
    | Some (Num n) => n
    | _ => pos_zero
    end in
  let count := number_add seen (of_int 1) in
  ({| add_binding := add_binding w; subtract_binding := subtract_binding w;
      globals := <["count"%string := Num count]> (globals w) |},
   Responded (res_json [("result"%string, json_number count)] res)).

(** ** Vocabulary of the statements *)

(** The two responses of the pipeline. *)
Definition unprocessable : response :=
  {| statusCode := 422; body := Some (Text validation_message) |}.

Definition ok (obj : json_object) : response :=
  {| statusCode := 200; body := Some (Json obj) |}.

(** What the middleware reads from [req.query.k]. *)
Definition operand (req : request) (k : string) : number :=
  parseInt (ToString (query req !! k)).

(** A query parameter the middleware turns down: it is missing, or it
    does not parse to a number, or it parses to zero. *)
Inductive invalid_param : option string -> Prop :=
| param_missing : invalid_param None
| param_non_numeric (s : string) :
    isNaN (parseInt s) = true -> invalid_param (Some s)
| param_zero (s : string) :
    is_zero (parseInt s) = true -> invalid_param (Some s).

(** Decimal integer literals: an optional sign and one or more digits. *)
Definition is_decimal_digit (c : ascii) : bool :=
  let n := Z.of_N (N_of_ascii c) in (48 <=? n) && (n <=? 57).

Fixpoint all_decimal (s : string) : bool :=
  match s with
  | String c rest => is_decimal_digit c && all_decimal rest
  | EmptyString => true
  end.

Definition starts_with_decimal (s : string) : bool :=
  match s with
  | String c _ => is_decimal_digit c
  | EmptyString => false
  end.

Definition integer_literal (s : string) : bool :=
  let d := snd (strip_sign s) in starts_with_decimal d && all_decimal d.

(** The integer a literal denotes. *)
Fixpoint decimal_value (acc : Z) (s : string) : Z :=
  match s with
  | String c rest => decimal_value (acc * 10 + (Z.of_N (N_of_ascii c) - 48)) rest
  | EmptyString => acc
  end.

Definition literal_int (s : string) : Z :=
  let '(negative, d) := strip_sign s in
  if negative then - decimal_value 0 d else decimal_value 0 d.

(** The decimal literal of an integer, as a client writes it in the
    query string: the digits of [n] are put in front of [acc], least
    significant first. *)
Fixpoint decimal_digits (fuel : nat) (n : Z) (acc : string) : string :=
  match fuel with
  | O => acc
  | S fuel' =>
      let acc' := String (ascii_of_N (Z.to_N (48 + n mod 10))) acc in
      if n / 10 =? 0 then acc' else decimal_digits fuel' (n / 10) acc'
  end.

Definition decimal (z : Z) : string :=
  let digits :=
    decimal_digits (S (Z.to_nat (Z.log2 (Z.abs z)))) (Z.abs z) EmptyString in
  if z <? 0 then String "-" digits else digits.

(** The integers that binary64 holds exactly together with their
    neighbours (Number.isSafeInteger). *)
Definition safe_integer (z : Z) : Prop := Z.abs z < 2 ^ 53.

(** The binary64 value of a safe integer, written out: the magnitude is
    shifted left until it has 53 bits. *)
Definition normal_form (s : bool) (n : positive) : number :=
  S754_finite s
    (Z.to_pos (Z.pos n * 2 ^ (53 - Z.pos (digits2_pos n))))
    (Z.pos (digits2_pos n) - 53).

Definition int_float (z : Z) : number :=
  match z with
  | Z0 => S754_zero false
  | Z.pos n => normal_form false n
  | Z.neg n => normal_form true n
  end.

(** The integer a Number holds, when it holds one. *)
Definition to_int (x : number) : option Z :=
  match x with
  | S754_zero _ => Some 0
  | S754_finite s m e =>
      let mag :=
        if 0 <=? e then Some (Z.pos m * 2 ^ e)
        else if Z.pos m mod 2 ^ (- e) =? 0 then Some (Z.pos m / 2 ^ (- e))
        else None in
      match mag with
      | Some v => Some (if s then - v else v)
      | None => None
      end
  | S754_nan | S754_infinity _ => None
  end.

(** A shift register with no bit lost. *)
Definition exact_record (m : Z) : shr_record :=
  {| shr_m := m; shr_r := false; shr_s := false |}.

(** A request of the calculator API. *)
Definition calc_request (p : string) (a b : string) : incoming :=
  Incoming GET p {[ "a"%string := a; "b"%string := b ]}.

(** ** The tests of the README *)

(** [response.body.result] as supertest hands it to a test: the member
    of a JSON body, and nothing for any other body. *)
Fixpoint json_get (k : string) (obj : json_object) : option json_value :=
  match obj with
  | [] => None
  | (k', v) :: rest => if String.eqb k k' then Some v else json_get k rest
  end.

Definition body_result (out : response) : option json_value :=
  match body out with
  | Some (Json obj) => json_get "result" obj
  | _ => None
  end.

(** [typeof response.body.result === 'number']: null has type object
    and a missing member type undefined. *)
Definition result_is_number (out : response) : bool :=
  match body_result out with
  | Some (JNumber _) => true
  | _ => false
  end.

(** [.expect(code)]. *)
Definition expect (code : Z) (out : response) : bool := statusCode out =? code.

(** README.md, lines 47-59 and 73-82: the integration tests, run
    against an app. *)
Definition addition_should_accept_numbers (stack : list layer) : bool :=
  expect 200 (snd (respond stack (calc_request "/add" "1" "1"))).

Definition addition_should_reject_strings (stack : list layer) : bool :=
  expect 422 (snd (respond stack (calc_request "/add" "string" "2"))).

Definition addition_should_respond_with_a_numeric_result (stack : list layer)
  : bool :=
  let response := snd (respond stack (calc_request "/subtract" "5" "4")) in
  expect 200 response && result_is_number response.

(** [===] on the values of this program. *)
Definition strict_equals (v w : value) : bool :=
  match v, w with
  | Undefined, Undefined => true
  | Num x, Num y => SFeqb x y
  | _, _ => false
  end.

(** README.md, lines 155-165: the unit tests of lib/add.js, run against
    an implementation. *)
Definition it_should_add_two_numbers (lib_add : value -> value -> value) : bool :=
  strict_equals (lib_add (Num (of_int 1)) (Num (of_int 1))) (Num (of_int 2)).

Definition it_should_add_two_negative_numbers
    (lib_add : value -> value -> value) : bool :=
  strict_equals (lib_add (Num (of_int (-2))) (Num (of_int (-2))))
                (Num (of_int (-4))).

(** ** More vocabulary *)

(** Numbers that JSON can carry. *)
Definition is_finite (x : number) : bool :=
  match x with
  | S754_zero _ | S754_finite _ _ _ => true
  | S754_nan | S754_infinity _ => false
  end.

(** A path in lower case: the letters A to Z are replaced. *)
Definition lower_case (c : ascii) : ascii :=
  let n := N_of_ascii c in
  if ((65 <=? n) && (n <=? 90))%N then ascii_of_N (n + 32) else c.

Fixpoint lower (s : string) : string :=
  match s with
  | String c rest => String (lower_case c) (lower rest)
  | EmptyString => EmptyString
  end.

(** A path that is [p] but for the case of its letters and a slash at
    its end. *)
Definition on_path (p url : string) : bool :=
  String.eqb (lower url) p || String.eqb (lower url) (p +:+ "/").

(** Strings of code units below 128 without a capital letter. *)
Definition plain_lower_char (c : ascii) : bool :=
  let n := Z.of_N (N_of_ascii c) in
  (n <? 128) && negb ((65 <=? n) && (n <=? 90)).

Fixpoint plain_lower (s : string) : bool :=
  match s with
  | String c rest => plain_lower_char c && plain_lower rest
  | EmptyString => true
  end.

(** The requests app.js answers itself or by a route: GET, HEAD and
    OPTIONS requests for /add or /subtract. *)
Definition routed (r : incoming) : bool :=
  match in_method r with
  | GET | HEAD | OPTIONS =>
      on_path "/add" (in_path r) || on_path "/subtract" (in_path r)
  | _ => false
  end.

(** Express's own answer to an OPTIONS request for a GET route. *)
Definition allow_get : response :=
  {| statusCode := 200; body := Some (Allow ["GET"; "HEAD"]%string) |}.

(** [req.query[k] = v]. *)
Definition set_query (k v : string) (req : request) : request :=
  {| method := method req; path := path req;
     query := <[k := v]> (query req); props := props req |}.

Fixpoint all_white (s : string) : bool :=
  match s with
  | String c rest => is_white_space c && all_white rest
  | EmptyString => true
  end.

(** Hexadecimal digits, and the integer a string of them denotes. *)
Definition is_hex_digit (c : ascii) : bool :=
  let n := Z.of_N (N_of_ascii c) in
  ((48 <=? n) && (n <=? 57)) || ((97 <=? n) && (n <=? 102))
  || ((65 <=? n) && (n <=? 70)).

Fixpoint all_hex (s : string) : bool :=
  match s with
  | String c rest => is_hex_digit c && all_hex rest
  | EmptyString => true
  end.

Definition starts_with_hex (s : string) : bool :=
  match s with
  | String c _ => is_hex_digit c
  | EmptyString => false
  end.

Definition hex_digit (c : ascii) : Z :=
  let n := Z.of_N (N_of_ascii c) in
  if n <=? 57 then n - 48 else if n <=? 70 then n - 55 else n - 87.

Fixpoint hex_value (acc : Z) (s : string) : Z :=
  match s with
  | String c rest => hex_value (acc * 16 + hex_digit c) rest
  | EmptyString => acc
  end.

(** * Properties *)

(** ** Binary64 on integers *)

Section Binary64.

Lemma iter_pos_iter {A : Type} (f : A -> A) (n : positive) (x : A) :
  SpecFloat.iter_pos f n x = Pos.iter f x n.
Proof.
  revert x. induction n as [n IH | n IH |]; intros x; simpl.
  - rewrite !IH. now rewrite <- !Pos.iter_swap.
  - now rewrite !IH.
  - reflexivity.
Qed.

Lemma digits2_pos_bounds (m : positive) :
  2 ^ (Z.pos (digits2_pos m) - 1) <= Z.pos m < 2 ^ Z.pos (digits2_pos m).
Proof.
  induction m as [m IH | m IH |]; simpl digits2_pos.
  - rewrite Pos2Z.inj_succ.
    replace (Z.succ (Z.pos (digits2_pos m)) - 1)
      with (Z.succ (Z.pos (digits2_pos m) - 1)) by lia.
    rewrite !Z.pow_succ_r by lia. lia.
  - rewrite Pos2Z.inj_succ.
    replace (Z.succ (Z.pos (digits2_pos m)) - 1)
      with (Z.succ (Z.pos (digits2_pos m) - 1)) by lia.
    rewrite !Z.pow_succ_r by lia. lia.
  - simpl. lia.
Qed.

Lemma digits2_pos_le (m : positive) (d : Z) :
  0 <= d -> (Z.pos (digits2_pos m) <= d <-> Z.pos m < 2 ^ d).
Proof.
  intros Hd. pose proof (digits2_pos_bounds m) as [Hlo Hhi]. split; intros H.
  - eapply Z.lt_le_trans; [exact Hhi|]. apply Z.pow_le_mono_r; lia.
  - destruct (Z_le_gt_dec (Z.pos (digits2_pos m)) d) as [|Hgt]; [assumption|].
    assert (2 ^ d <= 2 ^ (Z.pos (digits2_pos m) - 1))
      by (apply Z.pow_le_mono_r; lia).
    lia.
Qed.

Lemma shift_pos_value (m d : positive) :
  Z.pos (Pos.iter xO m d) = Z.pos m * 2 ^ Z.pos d.
Proof.
  induction d as [|d IH] using Pos.peano_ind.
  - simpl. lia.
  - rewrite Pos.iter_succ, Pos2Z.inj_succ, Z.pow_succ_r by lia.
    rewrite Pos2Z.inj_xO, IH. lia.
Qed.

Lemma shift_pos_digits (m d : positive) :
  digits2_pos (Pos.iter xO m d) = (digits2_pos m + d)%positive.
Proof.
  induction d as [|d IH] using Pos.peano_ind.
  - simpl. lia.
  - rewrite Pos.iter_succ. simpl. rewrite IH. lia.
Qed.

Lemma shr_1_exact (x : Z) : shr_1 (exact_record (2 * x)) = exact_record x.
Proof. destruct x; reflexivity. Qed.

(** Shifting out bits that are all zero loses nothing. *)
Lemma shr_exact (x : Z) (p : positive) :
  SpecFloat.iter_pos shr_1 p (exact_record (x * 2 ^ Z.pos p)) = exact_record x.
Proof.
  rewrite iter_pos_iter. revert x.
  induction p as [|p IH] using Pos.peano_ind; intros x.
  - change (shr_1 (exact_record (x * 2 ^ 1)) = exact_record x).
    replace (x * 2 ^ 1) with (2 * x) by lia. apply shr_1_exact.
  - rewrite Pos.iter_succ_r, Pos2Z.inj_succ, Z.pow_succ_r by lia.
    replace (x * (2 * 2 ^ Z.pos p)) with (2 * (x * 2 ^ Z.pos p)) by lia.
    rewrite shr_1_exact. apply IH.
Qed.

Lemma shr_fexp_eq (m e : Z) (l : location) :
  shr_fexp 53 1024 m e l
  = shr (shr_record_of_loc m l) e (Z.max (Zdigits2 m + e - 53) (-1074) - e).
Proof. reflexivity. Qed.

Lemma round_aux_after_shift (s : bool) (m e : Z) (mz : positive) (ez : Z) :
  shr_fexp 53 1024 m e loc_Exact = (exact_record (Z.pos mz), ez) ->
  Z.pos (digits2_pos mz) = 53 -> -1074 <= ez <= 971 ->
  binary_round_aux 53 1024 s m e loc_Exact = S754_finite s mz ez.
Proof.
  intros Hshr Hd He. unfold binary_round_aux. rewrite Hshr.
  cbn [exact_record shr_m loc_of_shr_record round_nearest_even].
  rewrite shr_fexp_eq. cbn [Zdigits2]. rewrite Hd.
  replace (Z.max (53 + ez - 53) (-1074) - ez) with 0 by lia.
  cbn [shr shr_record_of_loc shr_m].
  assert ((ez <=? 1024 - 53) = true) as -> by lia.
  reflexivity.
Qed.

(** A 53-bit mantissa with an exponent in range is left as it is. *)
Lemma round_aux_normal (s : bool) (mz : positive) (ez : Z) :
  Z.pos (digits2_pos mz) = 53 -> -1074 <= ez <= 971 ->
  binary_round_aux 53 1024 s (Z.pos mz) ez loc_Exact = S754_finite s mz ez.
Proof.
  intros Hd He. apply round_aux_after_shift; try assumption.
  rewrite shr_fexp_eq. cbn [Zdigits2]. rewrite Hd.
  replace (Z.max (53 + ez - 53) (-1074) - ez) with 0 by lia.
  reflexivity.
Qed.

Lemma scaled_digits (n M : positive) (k : Z) :
  0 <= k -> Z.pos M = Z.pos n * 2 ^ k ->
  Z.pos (digits2_pos M) = Z.pos (digits2_pos n) + k.
Proof.
  intros Hk HM. destruct k as [|p|p]; [| |lia].
  - replace M with n by lia. lia.
  - rewrite <- shift_pos_value in HM. injection HM as ->.
    rewrite shift_pos_digits. lia.
Qed.

(** Rounding [n * 2^k] at exponent [-k] gives the normal form of [n]. *)
Lemma binary_round_scaled (s : bool) (n M : positive) (k : Z) :
  Z.pos n < 2 ^ 53 -> 0 <= k <= 1000 -> Z.pos M = Z.pos n * 2 ^ k ->
  binary_round 53 1024 s M (- k) = normal_form s n.
Proof.
  intros Hn Hk HM.
  pose proof (scaled_digits n M k (proj1 Hk) HM) as HD.
  assert (Hd : Z.pos (digits2_pos n) <= 53) by (apply digits2_pos_le; lia).
  set (d := Z.pos (digits2_pos n)) in *.
  assert (Hd1 : 1 <= d) by (unfold d; lia).
  assert (Hpos : 0 < Z.pos n * 2 ^ (53 - d)).
  { apply Z.mul_pos_pos; [lia|]. apply Z.pow_pos_nonneg; lia. }
  unfold binary_round, normal_form. fold d.
  rewrite HD. unfold fexp at 1, emin.
  replace (Z.max (d + k + - k - 53) (3 - 1024 - 53)) with (d - 53) by lia.
  unfold shl_align.
  destruct (d - 53 - - k) as [|q|q] eqn:Hq.
  - (* the mantissa has 53 bits already *)
    rewrite round_aux_normal by lia.
    f_equal; [|lia]. replace (53 - d) with k by lia. rewrite <- HM. reflexivity.
  - (* the low zero bits are shifted out *)
    apply round_aux_after_shift.
    + rewrite shr_fexp_eq. cbn [Zdigits2]. rewrite HD.
      replace (Z.max (d + k + - k - 53) (-1074) - - k) with (Z.pos q) by lia.
      cbn [shr shr_record_of_loc]. f_equal; [|lia].
      rewrite HM.
      replace k with ((53 - d) + Z.pos q) by lia.
      rewrite Z.pow_add_r by lia. rewrite Z.mul_assoc.
      fold (exact_record (Z.pos n * 2 ^ (53 - d) * 2 ^ Z.pos q)).
      rewrite shr_exact. unfold exact_record. f_equal.
      now rewrite Z2Pos.id.
    + rewrite (scaled_digits n _ (53 - d)); [fold d; lia|lia|].
      now rewrite Z2Pos.id.
    + lia.
  - (* the mantissa is shifted left to 53 bits *)
    rewrite round_aux_normal.
    + f_equal. apply Pos2Z.inj. rewrite shift_pos_value, HM.
      rewrite Z2Pos.id by assumption.
      replace (53 - d) with (k + Z.pos q) by lia.
      rewrite Z.pow_add_r by lia. lia.
    + rewrite shift_pos_digits, Pos2Z.inj_add, HD. lia.
    + lia.
Qed.

Lemma normalize_scaled (z k : Z) :
  safe_integer z -> 0 <= k <= 1000 ->
  binary_normalize 53 1024 (z * 2 ^ k) (- k) false = int_float z.
Proof.
  unfold safe_integer. intros Hz Hk.
  assert (Hp : 0 < 2 ^ k) by (apply Z.pow_pos_nonneg; lia).
  destruct z as [|n|n]; simpl int_float.
  - reflexivity.
  - destruct (Z.pos n * 2 ^ k) as [|M|M] eqn:HM; try lia.
    apply binary_round_scaled; [lia|lia|now symmetry].
  - destruct (Z.neg n * 2 ^ k) as [|M|M] eqn:HM; try lia.
    apply binary_round_scaled; [lia|lia|]. lia.
Qed.

(** The Number of a safe integer is its normal form. *)
Lemma of_int_safe (z : Z) : safe_integer z -> of_int z = int_float z.
Proof.
  intros Hz. unfold of_int.
  rewrite <- (normalize_scaled z 0) by (assumption || lia).
  now rewrite Z.mul_1_r.
Qed.

Lemma shl_align_value (mx : positive) (ex ez : Z) :
  ez <= ex ->
  Z.pos (fst (shl_align mx ex ez)) = Z.pos mx * 2 ^ (ex - ez).
Proof.
  intros H. unfold shl_align.
  destruct (ez - ex) as [|q|q] eqn:Hq; try lia; cbn [fst].
  - replace (ex - ez) with 0 by lia. lia.
  - rewrite shift_pos_value. f_equal. f_equal. lia.
Qed.

Lemma normal_form_mantissa (n : positive) :
  Z.pos n < 2 ^ 53 ->
  let d := Z.pos (digits2_pos n) in
  Z.pos (Z.to_pos (Z.pos n * 2 ^ (53 - d))) = Z.pos n * 2 ^ (53 - d)
  /\ 1 <= d <= 53.
Proof.
  intros Hn d.
  assert (Hd : d <= 53) by (apply digits2_pos_le; lia).
  assert (1 <= d) by (unfold d; lia).
  split; [|lia]. apply Z2Pos.id.
  apply Z.mul_pos_pos; [lia|]. apply Z.pow_pos_nonneg; lia.
Qed.

(** The integer that [SFadd] and [SFsub] build from two normal forms
    is the sum or difference of the two integers, scaled. *)
Lemma finite_sum_scaled (op : Z -> Z -> Z) (sa sb : bool) (na nb : positive) :
  (forall x y c, op x y * c = op (x * c) (y * c)) ->
  Z.pos na < 2 ^ 53 -> Z.pos nb < 2 ^ 53 ->
  let ea := Z.pos (digits2_pos na) - 53 in
  let eb := Z.pos (digits2_pos nb) - 53 in
  let ma := Z.to_pos (Z.pos na * 2 ^ (53 - Z.pos (digits2_pos na))) in
  let mb := Z.to_pos (Z.pos nb * 2 ^ (53 - Z.pos (digits2_pos nb))) in
  let ez := Z.min ea eb in
  op (cond_Zopp sa (Z.pos (fst (shl_align ma ea ez))))
     (cond_Zopp sb (Z.pos (fst (shl_align mb eb ez))))
  = op (cond_Zopp sa (Z.pos na)) (cond_Zopp sb (Z.pos nb)) * 2 ^ (- ez)
  /\ 0 <= - ez <= 1000.
Proof.
  intros Hop Ha Hb ea eb ma mb ez.
  destruct (normal_form_mantissa na Ha) as [Hma Hda].
  destruct (normal_form_mantissa nb Hb) as [Hmb Hdb].
  split; [|lia].
  rewrite !shl_align_value by lia. fold ma in Hma. fold mb in Hmb.
  rewrite Hma, Hmb, Hop.
  rewrite <- !Z.mul_assoc, <- !Z.pow_add_r by lia.
  replace (53 - Z.pos (digits2_pos na) + (ea - ez)) with (- ez) by lia.
  replace (53 - Z.pos (digits2_pos nb) + (eb - ez)) with (- ez) by lia.
  destruct sa, sb; cbn [cond_Zopp]; rewrite ?Z.mul_opp_l; reflexivity.
Qed.

Lemma int_float_add (a b : Z) :
  safe_integer a -> safe_integer b -> safe_integer (a + b) ->
  SFadd 53 1024 (int_float a) (int_float b) = int_float (a + b).
Proof.
  unfold safe_integer. intros Ha Hb Hab.
  assert (Hfin : forall sa sb na nb,
             Z.pos na < 2 ^ 53 -> Z.pos nb < 2 ^ 53 ->
             Z.abs (cond_Zopp sa (Z.pos na) + cond_Zopp sb (Z.pos nb)) < 2 ^ 53 ->
             SFadd 53 1024 (normal_form sa na) (normal_form sb nb)
             = int_float (cond_Zopp sa (Z.pos na) + cond_Zopp sb (Z.pos nb))).
  { intros sa sb na nb Hna Hnb Hs. unfold normal_form, SFadd.
    destruct (finite_sum_scaled Z.add sa sb na nb) as [-> Hk]; try assumption.
    - intros; apply Z.mul_add_distr_r.
    - rewrite <- (Z.opp_involutive (Z.min _ _)) at 2.
      now apply normalize_scaled. }
  destruct a as [|na|na], b as [|nb|nb]; try reflexivity.
  - apply (Hfin false false); cbn [cond_Zopp Z.opp]; lia.
  - apply (Hfin false true); cbn [cond_Zopp Z.opp]; lia.
  - apply (Hfin true false); cbn [cond_Zopp Z.opp]; lia.
  - apply (Hfin true true); cbn [cond_Zopp Z.opp]; lia.
Qed.

Lemma int_float_sub (a b : Z) :
  safe_integer a -> safe_integer b -> safe_integer (a - b) ->
  SFsub 53 1024 (int_float a) (int_float b) = int_float (a - b).
Proof.
  unfold safe_integer. intros Ha Hb Hab.
  assert (Hfin : forall sa sb na nb,
             Z.pos na < 2 ^ 53 -> Z.pos nb < 2 ^ 53 ->
             Z.abs (cond_Zopp sa (Z.pos na) - cond_Zopp sb (Z.pos nb)) < 2 ^ 53 ->
             SFsub 53 1024 (normal_form sa na) (normal_form sb nb)
             = int_float (cond_Zopp sa (Z.pos na) - cond_Zopp sb (Z.pos nb))).
  { intros sa sb na nb Hna Hnb Hs. unfold normal_form, SFsub.
    destruct (finite_sum_scaled Z.sub sa sb na nb) as [-> Hk]; try assumption.
    - intros; apply Z.mul_sub_distr_r.
    - rewrite <- (Z.opp_involutive (Z.min _ _)) at 2.
      now apply normalize_scaled. }
  destruct a as [|na|na], b as [|nb|nb]; try reflexivity.
  - apply (Hfin false false); cbn [cond_Zopp Z.opp]; lia.
  - apply (Hfin false true); cbn [cond_Zopp Z.opp]; lia.
  - apply (Hfin true false); cbn [cond_Zopp Z.opp]; lia.
  - apply (Hfin true true); cbn [cond_Zopp Z.opp]; lia.
Qed.

(** [+] and [-] are exact on safe integers whose result is safe. *)
Lemma number_add_safe (a b : Z) :
  safe_integer a -> safe_integer b -> safe_integer (a + b) ->
  number_add (of_int a) (of_int b) = of_int (a + b).
Proof.
  intros Ha Hb Hab. rewrite !of_int_safe by assumption.
  now apply int_float_add.
Qed.

Lemma number_subtract_safe (a b : Z) :
  safe_integer a -> safe_integer b -> safe_integer (a - b) ->
  number_subtract (of_int a) (of_int b) = of_int (a - b).
Proof.
  intros Ha Hb Hab. rewrite !of_int_safe by assumption.
  now apply int_float_sub.
Qed.

Lemma shr_1_half (mrs : shr_record) :
  0 <= shr_m mrs -> shr_m (shr_1 mrs) = shr_m mrs / 2.
Proof.
  destruct mrs as [m r s]. cbn [shr_m]. intros Hm.
  rewrite <- Z.div2_div.
  destruct m as [|[p|p|]|p]; try reflexivity. lia.
Qed.

Lemma shr_iter_div (p : positive) (mrs : shr_record) :
  0 <= shr_m mrs ->
  shr_m (SpecFloat.iter_pos shr_1 p mrs) = shr_m mrs / 2 ^ Z.pos p.
Proof.
  intros Hm. rewrite iter_pos_iter.
  induction p as [|p IH] using Pos.peano_ind.
  - change (shr_m (shr_1 mrs) = shr_m mrs / 2 ^ 1).
    now rewrite shr_1_half.
  - rewrite Pos.iter_succ, shr_1_half, IH.
    + rewrite Pos2Z.inj_succ, Z.pow_succ_r, Z.div_div by lia.
      f_equal. lia.
    + rewrite IH. apply Z.div_pos; [assumption|]. apply Z.pow_pos_nonneg; lia.
Qed.

Lemma round_nearest_even_bounds (m : Z) (l : location) :
  m <= round_nearest_even m l <= m + 1.
Proof.
  unfold round_nearest_even.
  destruct l as [|[| |]]; try lia. destruct (Z.even m); lia.
Qed.

(** An integer of 54 bits or more is rounded to a finite number or
    to an infinity. *)
Lemma round_aux_big (s : bool) (m : positive) :
  2 ^ 53 <= Z.pos m ->
  ToBoolean (binary_round_aux 53 1024 s (Z.pos m) 0 loc_Exact) = true.
Proof.
  intros Hm.
  pose proof (digits2_pos_bounds m) as [Hlo Hhi].
  set (d := Z.pos (digits2_pos m)) in *.
  assert (Hd : 54 <= d).
  { destruct (Z_le_gt_dec 54 d) as [|Hgt]; [assumption|].
    assert (Z.pos m < 2 ^ 53) by (apply digits2_pos_le; fold d; lia). lia. }
  unfold binary_round_aux. rewrite shr_fexp_eq. cbn [Zdigits2]. fold d.
  destruct (Z.max (d + 0 - 53) (-1074) - 0) as [|q|q] eqn:Hq; try lia.
  cbn [shr shr_record_of_loc].
  set (mrs := SpecFloat.iter_pos shr_1 q _).
  assert (Hmrs : 2 ^ 52 <= shr_m mrs < 2 ^ 53).
  { unfold mrs. rewrite shr_iter_div by (cbn; lia). cbn [shr_m].
    assert (Hq' : Z.pos q = d - 53) by lia.
    assert (Hpq : 0 < 2 ^ Z.pos q) by (apply Z.pow_pos_nonneg; lia).
    split.
    - apply Z.div_le_lower_bound; [lia|].
      rewrite <- Z.pow_add_r by lia.
      replace (Z.pos q + 52) with (d - 1) by lia. exact Hlo.
    - apply Z.div_lt_upper_bound; [lia|].
      rewrite <- Z.pow_add_r by lia.
      replace (Z.pos q + 53) with d by lia. exact Hhi. }
  pose proof (round_nearest_even_bounds (shr_m mrs) (loc_of_shr_record mrs)) as Hr.
  set (m1 := round_nearest_even (shr_m mrs) (loc_of_shr_record mrs)) in *.
  change (2 ^ 52) with 4503599627370496 in Hmrs.
  change (2 ^ 53) with 9007199254740992 in Hmrs.
  rewrite shr_fexp_eq.
  destruct m1 as [|p1|p1] eqn:Hm1; try lia.
  cbn [Zdigits2].
  assert (Hd1 : 53 <= Z.pos (digits2_pos p1) <= 54).
  { pose proof (digits2_pos_bounds p1) as [Hlo1 Hhi1]. split.
    - destruct (Z_le_gt_dec 53 (Z.pos (digits2_pos p1))) as [|Hgt]; [assumption|].
      assert (Z.pos p1 < 2 ^ 52) by (apply digits2_pos_le; lia).
      change (2 ^ 52) with 4503599627370496 in *. lia.
    - apply digits2_pos_le; [lia|].
      change (2 ^ 54) with 18014398509481984. lia. }
  destruct (Z.max (Z.pos (digits2_pos p1) + (0 + Z.pos q) - 53) (-1074)
            - (0 + Z.pos q)) as [|q2|q2] eqn:Hq2; try lia.
  - cbn [shr shr_record_of_loc shr_m].
    destruct (Z.leb _ _); reflexivity.
  - assert (q2 = 1%positive) as -> by lia.
    cbn [shr shr_record_of_loc SpecFloat.iter_pos].
    rewrite shr_1_half by (cbn; lia). cbn [shr_m].
    assert (Hh : 2251799813685248 <= Z.pos p1 / 2).
    { apply Z.div_le_lower_bound; lia. }
    destruct (Z.pos p1 / 2) as [|h|h]; try lia.
    destruct (Z.leb _ _); reflexivity.
Qed.

(** The Number of a nonzero integer, of any size, is neither zero nor
    NaN. *)
Lemma of_int_truthy (z : Z) : z <> 0 -> ToBoolean (of_int z) = true.
Proof.
  intros Hz.
  destruct (Z_lt_le_dec (Z.abs z) (2 ^ 53)) as [Hs | Hb].
  - rewrite of_int_safe by assumption. destruct z; [contradiction|reflexivity..].
  - assert (Hbig : forall s m, 2 ^ 53 <= Z.pos m ->
                     ToBoolean (binary_round 53 1024 s m 0) = true).
    { intros s m Hm. unfold binary_round.
      pose proof (digits2_pos_bounds m) as [Hlo Hhi].
      assert (Hd : 54 <= Z.pos (digits2_pos m)).
      { destruct (Z_le_gt_dec 54 (Z.pos (digits2_pos m))) as [|Hgt]; [assumption|].
        assert (Z.pos m < 2 ^ 53) by (apply digits2_pos_le; lia). lia. }
      assert (Hal : shl_align m 0 (fexp 53 1024 (Z.pos (digits2_pos m) + 0)) = (m, 0)).
      { unfold shl_align, fexp, emin.
        destruct (Z.max (Z.pos (digits2_pos m) + 0 - 53) (3 - 1024 - 53) - 0)
          as [|q|q] eqn:Hq; try reflexivity. lia. }
      rewrite Hal. now apply round_aux_big. }
    destruct z as [|m|m]; [contradiction| |]; apply Hbig; lia.
Qed.

Lemma json_number_of_int (z : Z) :
  safe_integer z -> json_number (of_int z) = JNumber (of_int z).
Proof.
  intros Hz. rewrite of_int_safe by assumption. destruct z; reflexivity.
Qed.

End Binary64.

(** ** What [parseInt] reads *)

Section ParseInt.

Lemma radix_digit_decimal (c : ascii) :
  radix_digit 10 c =
    if is_decimal_digit c then Some (Z.of_N (N_of_ascii c) - 48) else None.
Proof.
  unfold radix_digit, digit_value, is_decimal_digit.
  set (n := Z.of_N (N_of_ascii c)).
  destruct ((48 <=? n) && (n <=? 57)) eqn:E.
  - apply andb_true_iff in E as [E1 E2].
    assert ((n - 48 <? 10) = true) as -> by lia. reflexivity.
  - destruct ((97 <=? n) && (n <=? 122)) eqn:E1.
    + apply andb_true_iff in E1 as [? ?].
      assert ((n - 87 <? 10) = false) as -> by lia. reflexivity.
    + destruct ((65 <=? n) && (n <=? 90)) eqn:E2; [|reflexivity].
      apply andb_true_iff in E2 as [? ?].
      assert ((n - 55 <? 10) = false) as -> by lia. reflexivity.
Qed.

Lemma decimal_not_white (c : ascii) :
  is_decimal_digit c = true -> is_white_space c = false.
Proof.
  unfold is_decimal_digit, is_white_space.
  set (n := Z.of_N (N_of_ascii c)). intros H.
  apply andb_true_iff in H as [? ?].
  repeat (apply orb_false_iff; split); lia.
Qed.

Lemma decimal_not_sign (c : ascii) :
  is_decimal_digit c = true ->
  Ascii.eqb c "-" = false /\ Ascii.eqb c "+" = false.
Proof.
  intros H. split; apply Ascii.eqb_neq; intros ->; discriminate.
Qed.

Lemma decimal_not_x (c : ascii) :
  is_decimal_digit c = true ->
  (Ascii.eqb c "x" || Ascii.eqb c "X")%bool = false.
Proof.
  intros H. apply orb_false_iff; split; apply Ascii.eqb_neq; intros ->; discriminate.
Qed.

Lemma digit_prefix_decimal_app (d r : string) :
  all_decimal d = true -> starts_with_decimal r = false ->
  digit_prefix 10 (d +:+ r) = digit_prefix 10 d.
Proof.
  intros Hd Hr. induction d as [|c d IH]; simpl in *.
  - destruct r as [|c r]; [reflexivity|]. simpl in *.
    now rewrite radix_digit_decimal, Hr.
  - apply andb_true_iff in Hd as [Hc Hd].
    rewrite radix_digit_decimal, Hc. f_equal. now apply IH.
Qed.

Lemma strip_hex_prefix_decimal (d : string) :
  all_decimal d = true -> strip_hex_prefix d = (10, d).
Proof.
  destruct d as [|c0 [|c1 d]]; simpl; try reflexivity.
  intros H. apply andb_true_iff in H as [_ H]. apply andb_true_iff in H as [H _].
  now rewrite (decimal_not_x c1 H), andb_false_r.
Qed.

Lemma strip_hex_prefix_decimal_app (d r : string) :
  starts_with_decimal d = true -> all_decimal d = true ->
  strip_hex_prefix (d +:+ r) = (10, d +:+ r) \/ d = "0"%string.
Proof.
  destruct d as [|c0 [|c1 d]]; simpl; try discriminate.
  - intros H _. destruct r as [|c1 r]; simpl; [now left|].
    destruct (Ascii.eqb c0 "0") eqn:E; [|now left].
    apply Ascii.eqb_eq in E as ->. now right.
  - intros _ H. apply andb_true_iff in H as [_ H]. apply andb_true_iff in H as [H _].
    left. now rewrite (decimal_not_x c1 H), andb_false_r.
Qed.

(** A literal starts with a sign or a digit, so nothing is trimmed. *)
Lemma literal_trim (p r : string) :
  integer_literal p = true -> trim_start (p +:+ r) = p +:+ r.
Proof.
  unfold integer_literal. intros Hp.
  apply andb_true_iff in Hp as [Hs _].
  destruct p as [|c p]; [discriminate|].
  simpl in *. destruct (Ascii.eqb c "-") eqn:E1.
  - apply Ascii.eqb_eq in E1 as ->. reflexivity.
  - destruct (Ascii.eqb c "+") eqn:E2.
    + apply Ascii.eqb_eq in E2 as ->. reflexivity.
    + simpl in Hs. now rewrite decimal_not_white.
Qed.

Lemma literal_strip_sign (p r : string) :
  integer_literal p = true ->
  strip_sign (p +:+ r) = (fst (strip_sign p), snd (strip_sign p) +:+ r).
Proof.
  unfold integer_literal. intros Hp.
  apply andb_true_iff in Hp as [Hs _].
  destruct p as [|c p]; [discriminate|].
  simpl. destruct (Ascii.eqb c "-"); [reflexivity|].
  destruct (Ascii.eqb c "+"); reflexivity.
Qed.

Lemma append_empty (s : string) : s +:+ "" = s.
Proof.
  induction s as [|c t IH]; [reflexivity|].
  change (String c (t +:+ "") = String c t). now rewrite IH.
Qed.

Lemma digits_int_decimal (d : string) (acc : Z) :
  all_decimal d = true ->
  fold_left (fun acc d => acc * 10 + d) (digit_prefix 10 d) acc
  = decimal_value acc d.
Proof.
  revert acc. induction d as [|c d IH]; intros acc Hd; simpl in *.
  - reflexivity.
  - apply andb_true_iff in Hd as [Hc Hd].
    rewrite radix_digit_decimal, Hc. simpl. now apply IH.
Qed.

(** [parseInt] on a literal: the integer it denotes, or a zero. *)
Lemma parseInt_literal (p : string) :
  integer_literal p = true ->
  parseInt p =
    if literal_int p =? 0
    then (if fst (strip_sign p) then neg_zero else pos_zero)
    else of_int (literal_int p).
Proof.
  intros Hp. unfold parseInt, literal_int.
  pose proof (literal_trim p "" Hp) as Ht. rewrite append_empty in Ht.
  rewrite Ht. unfold integer_literal in Hp.
  destruct (strip_sign p) as [neg d]. cbn [fst snd] in *.
  apply andb_true_iff in Hp as [Hs Hd].
  rewrite (strip_hex_prefix_decimal d Hd).
  pose proof (digits_int_decimal d 0 Hd) as Hv.
  fold (digits_int 10 (digit_prefix 10 d)) in Hv.
  destruct (digit_prefix 10 d) as [|z l] eqn:E.
  - destruct d as [|c d]; [discriminate|]. simpl in Hs, E.
    rewrite radix_digit_decimal, Hs in E. discriminate.
  - rewrite Hv. destruct neg.
    + destruct (Z.eqb_spec (decimal_value 0 d) 0),
               (Z.eqb_spec (- decimal_value 0 d) 0); try lia; reflexivity.
    + reflexivity.
Qed.

Lemma parseInt_literal_nonzero (p : string) :
  integer_literal p = true -> literal_int p <> 0 ->
  parseInt p = of_int (literal_int p).
Proof.
  intros Hp Hz. rewrite parseInt_literal by assumption.
  destruct (Z.eqb_spec (literal_int p) 0); [contradiction|reflexivity].
Qed.

Lemma parseInt_literal_zero (p : string) :
  integer_literal p = true -> literal_int p = 0 ->
  is_zero (parseInt p) = true.
Proof.
  intros Hp Hz. rewrite parseInt_literal, Hz by assumption. simpl.
  destruct (fst (strip_sign p)); reflexivity.
Qed.

(** Without a digit behind the white space and the sign there is no
    number. *)
Lemma parseInt_no_digit (s : string) :
  starts_with_decimal (snd (strip_sign (trim_start s))) = false ->
  parseInt s = NaN.
Proof.
  unfold parseInt. destruct (strip_sign (trim_start s)) as [neg d].
  cbn [snd]. intros Hd.
  assert (Hx : strip_hex_prefix d = (10, d)).
  { destruct d as [|c0 [|c1 d]]; try reflexivity. cbn [strip_hex_prefix].
    destruct (Ascii.eqb c0 "0") eqn:E; [|reflexivity].
    apply Ascii.eqb_eq in E as ->. discriminate. }
  rewrite Hx. destruct d as [|c0 d]; [reflexivity|].
  cbn [digit_prefix]. cbn [starts_with_decimal] in Hd.
  now rewrite radix_digit_decimal, Hd.
Qed.

(** What follows the digits is not read. *)
Lemma parseInt_numeric_prefix (p r : string) :
  integer_literal p = true -> starts_with_decimal r = false ->
  literal_int p <> 0 ->
  parseInt (p +:+ r) = of_int (literal_int p).
Proof.
  intros Hp Hr Hz. rewrite <- parseInt_literal_nonzero by assumption.
  unfold parseInt.
  pose proof (literal_trim p "" Hp) as Ht. rewrite append_empty in Ht.
  rewrite Ht, (literal_trim p r Hp), (literal_strip_sign p r Hp).
  unfold literal_int in Hz. unfold integer_literal in Hp.
  destruct (strip_sign p) as [neg d]. cbn [fst snd] in *.
  apply andb_true_iff in Hp as [Hs Hd].
  rewrite (strip_hex_prefix_decimal d Hd).
  destruct (strip_hex_prefix_decimal_app d r Hs Hd) as [-> | ->].
  - now rewrite digit_prefix_decimal_app.
  - destruct neg; simpl in Hz; contradiction.
Qed.

End ParseInt.

(** ** Decimal literals of integers *)

Section Decimal.

Lemma digit_char (k : Z) :
  0 <= k <= 9 -> Z.of_N (N_of_ascii (ascii_of_N (Z.to_N (48 + k)))) = 48 + k.
Proof. intros Hk. rewrite N_ascii_embedding; lia. Qed.

Lemma digit_char_decimal (n : Z) :
  is_decimal_digit (ascii_of_N (Z.to_N (48 + n mod 10))) = true.
Proof.
  pose proof (Z.mod_pos_bound n 10 ltac:(lia)) as Hm.
  unfold is_decimal_digit. rewrite digit_char by lia.
  apply andb_true_iff. split; lia.
Qed.

Lemma decimal_digits_value (fuel : nat) (n : Z) (s : string) :
  0 <= n < 2 ^ Z.of_nat fuel ->
  decimal_value 0 (decimal_digits fuel n s) = decimal_value n s.
Proof.
  revert n s. induction fuel as [|fuel IH]; intros n s Hn.
  - simpl in *. now replace n with 0 by lia.
  - pose proof (Z.mod_pos_bound n 10 ltac:(lia)) as Hm.
    pose proof (Z.div_mod n 10 ltac:(lia)) as Hdm.
    cbn [decimal_digits].
    destruct (Z.eqb_spec (n / 10) 0) as [E | E].
    + cbn [decimal_value]. rewrite digit_char by lia. f_equal. lia.
    + rewrite IH.
      * cbn [decimal_value]. rewrite digit_char by lia. f_equal. lia.
      * rewrite Nat2Z.inj_succ, Z.pow_succ_r in Hn by lia.
        split; [apply Z.div_pos; lia|].
        apply Z.div_lt_upper_bound; lia.
Qed.

Lemma decimal_digits_all (fuel : nat) (n : Z) (s : string) :
  all_decimal s = true -> all_decimal (decimal_digits fuel n s) = true.
Proof.
  revert n s. induction fuel as [|fuel IH]; intros n s Hs; [assumption|].
  cbn [decimal_digits].
  assert (Hacc : all_decimal (String (ascii_of_N (Z.to_N (48 + n mod 10))) s) = true).
  { cbn [all_decimal]. now rewrite digit_char_decimal, Hs. }
  destruct (n / 10 =? 0); [assumption|]. now apply IH.
Qed.

Lemma decimal_digits_starts (fuel : nat) (n : Z) (s : string) :
  starts_with_decimal s = true ->
  starts_with_decimal (decimal_digits fuel n s) = true.
Proof.
  revert n s. induction fuel as [|fuel IH]; intros n s Hs; [assumption|].
  cbn [decimal_digits].
  assert (Hacc : starts_with_decimal
                   (String (ascii_of_N (Z.to_N (48 + n mod 10))) s) = true)
    by apply digit_char_decimal.
  destruct (n / 10 =? 0); [assumption|]. now apply IH.
Qed.

Lemma decimal_magnitude (n : Z) :
  0 <= n ->
  let digits := decimal_digits (S (Z.to_nat (Z.log2 n))) n "" in
  starts_with_decimal digits = true /\ all_decimal digits = true /\
  decimal_value 0 digits = n.
Proof.
  intros Hn digits. split; [|split].
  - unfold digits. cbn [decimal_digits].
    destruct (n / 10 =? 0); [apply digit_char_decimal|].
    apply decimal_digits_starts, digit_char_decimal.
  - now apply decimal_digits_all.
  - unfold digits. rewrite decimal_digits_value; [reflexivity|].
    rewrite Nat2Z.inj_succ, Z2Nat.id by apply Z.log2_nonneg.
    destruct (Z.eq_dec n 0) as [-> | Hnz]; [simpl; lia|].
    split; [assumption|]. apply Z.log2_spec. lia.
Qed.

(** [decimal z] is a literal, and it denotes [z]. *)
Lemma decimal_literal (z : Z) :
  integer_literal (decimal z) = true /\ literal_int (decimal z) = z.
Proof.
  destruct (decimal_magnitude (Z.abs z) (Z.abs_nonneg z)) as (Hs & Ha & Hv).
  unfold decimal, integer_literal, literal_int.
  set (digits := decimal_digits _ _ _) in *.
  destruct (Z.ltb_spec z 0) as [Hneg | Hpos].
  - cbn [strip_sign]. change (Ascii.eqb "-" "-") with true.
    cbn [fst snd]. rewrite Hs, Ha, Hv. split; [reflexivity|lia].
  - assert (Hsign : strip_sign digits = (false, digits)).
    { destruct digits as [|c r]; [discriminate|]. cbn [strip_sign].
      cbn [starts_with_decimal] in Hs.
      destruct (decimal_not_sign c Hs) as [-> ->]. reflexivity. }
    rewrite Hsign. cbn [fst snd]. rewrite Hs, Ha, Hv. split; [reflexivity|lia].
Qed.

Lemma parseInt_decimal (z : Z) : z <> 0 -> parseInt (decimal z) = of_int z.
Proof.
  intros Hz. destruct (decimal_literal z) as [Hl Hv].
  rewrite parseInt_literal_nonzero; rewrite ?Hv; auto.
Qed.

End Decimal.

(** ** Reading integers back *)

Lemma to_int_safe (z : Z) : safe_integer z -> to_int (of_int z) = Some z.
Proof.
  intros Hz. rewrite of_int_safe by assumption.
  assert (Hn : forall s n, Z.pos n < 2 ^ 53 ->
             to_int (normal_form s n) = Some (if s then - Z.pos n else Z.pos n)).
  { intros s n Hn. destruct (normal_form_mantissa n Hn) as [Hm Hd].
    unfold normal_form, to_int. rewrite Hm.
    set (d := Z.pos (digits2_pos n)) in *.
    assert (Hp : 0 < 2 ^ (53 - d)) by (apply Z.pow_pos_nonneg; lia).
    destruct (Z.leb_spec 0 (d - 53)) as [He | He].
    - replace (53 - d) with 0 by lia. replace (d - 53) with 0 by lia.
      rewrite !Z.pow_0_r, !Z.mul_1_r. reflexivity.
    - replace (- (d - 53)) with (53 - d) by lia.
      rewrite Z.mod_mul, Z.div_mul by lia. reflexivity. }
  unfold safe_integer in Hz.
  destruct z as [|n|n]; [reflexivity| |]; simpl int_float; rewrite Hn; auto; lia.
Qed.

(** ** Truthiness of numbers *)

Lemma ToBoolean_false (x : number) :
  ToBoolean x = false <-> isNaN x = true \/ is_zero x = true.
Proof.
  destruct x; simpl; split; intros H; auto; try discriminate;
    destruct H; discriminate.
Qed.

Lemma ToBoolean_true (x : number) :
  ToBoolean x = true <-> isNaN x = false /\ is_zero x = false.
Proof.
  destruct x; simpl; split; intros H; auto; try discriminate;
    destruct H; discriminate.
Qed.

Lemma invalid_param_not_truthy (p : option string) :
  invalid_param p -> ToBoolean (parseInt (ToString p)) = false.
Proof.
  intros [ | s H | s H]; simpl.
  - reflexivity.
  - apply ToBoolean_false; now left.
  - apply ToBoolean_false; now right.
Qed.

(** A string with no digit behind the white space and the sign is
    turned down. *)
Lemma no_digit_invalid (s : string) :
  starts_with_decimal (snd (strip_sign (trim_start s))) = false ->
  invalid_param (Some s).
Proof. intros H. apply param_non_numeric. now rewrite parseInt_no_digit. Qed.

(** The literal of zero is turned down, with either sign. *)
Lemma zero_literal_invalid (p : string) :
  integer_literal p = true -> literal_int p = 0 -> invalid_param (Some p).
Proof. intros Hp Hz. apply param_zero. now apply parseInt_literal_zero. Qed.

(** ** The two outcomes of the middleware *)

Lemma validation_failure (req : request) (res : response) :
  ToBoolean (operand req "a") = false \/ ToBoolean (operand req "b") = false ->
  validation req res = Responded (res_end validation_message (res_status 422 res)).
Proof.
  unfold validation, operand. intros [H | H]; rewrite H; simpl.
  - reflexivity.
  - now rewrite orb_true_r.
Qed.

Lemma validation_success (req : request) (res : response) :
  ToBoolean (operand req "a") = true ->
  ToBoolean (operand req "b") = true ->
  validation req res =
    CallNext (set_prop "b" (Num (operand req "b"))
                (set_prop "a" (Num (operand req "a")) req)) res.
Proof.
  unfold validation, operand. intros Ha Hb. rewrite Ha, Hb.
  apply ToBoolean_true in Ha as [-> _]. apply ToBoolean_true in Hb as [-> _].
  reflexivity.
Qed.

Lemma validated_operands (req : request) (a b : value) :
  get_prop (set_prop "b" b (set_prop "a" a req)) "a" = a /\
  get_prop (set_prop "b" b (set_prop "a" a req)) "b" = b.
Proof.
  unfold get_prop, set_prop; simpl. split.
  - rewrite lookup_insert_ne by discriminate. now rewrite lookup_insert_eq.
  - now rewrite lookup_insert_eq.
Qed.

Lemma attached_operands (req : request) (a b : value) :
  props (set_prop "b" b (set_prop "a" a req)) !! "a"%string = Some a /\
  props (set_prop "b" b (set_prop "a" a req)) !! "b"%string = Some b.
Proof.
  unfold set_prop; cbn [props]. split.
  - rewrite lookup_insert_ne by discriminate. apply lookup_insert_eq.
  - apply lookup_insert_eq.
Qed.

(** ** Routing *)

Lemma ascii_code_bound (c : ascii) : 0 <= Z.of_N (N_of_ascii c) < 256.
Proof. pose proof (N_ascii_bounded c). lia. Qed.

Lemma lower_case_code (c : ascii) :
  Z.of_N (N_of_ascii (lower_case c)) =
    (if (65 <=? Z.of_N (N_of_ascii c)) && (Z.of_N (N_of_ascii c) <=? 90)
     then Z.of_N (N_of_ascii c) + 32 else Z.of_N (N_of_ascii c)).
Proof.
  unfold lower_case. cbv zeta. pose proof (N_ascii_bounded c) as Hc.
  destruct (N.leb_spec 65 (N_of_ascii c)), (N.leb_spec (N_of_ascii c) 90);
    destruct (Z.leb_spec 65 (Z.of_N (N_of_ascii c))),
             (Z.leb_spec (Z.of_N (N_of_ascii c)) 90);
    cbn [andb]; try lia; try reflexivity.
  rewrite N_ascii_embedding by lia. lia.
Qed.

(** Against a code unit below 128 that is no capital letter, the
    canonical forms of Express's regular expression are equal exactly
    when the lower case of the other code unit is that code unit. *)
Lemma canonicalize_lower (c d : ascii) :
  plain_lower_char d = true ->
  (canonicalize c =? canonicalize d) = Ascii.eqb (lower_case c) d.
Proof.
  intros Hd.
  assert (Hiff : canonicalize c = canonicalize d <->
                 Z.of_N (N_of_ascii (lower_case c)) = Z.of_N (N_of_ascii d)).
  { rewrite lower_case_code.
    pose proof (ascii_code_bound c) as Hc. pose proof (ascii_code_bound d) as Hm.
    unfold plain_lower_char in Hd. cbv zeta in Hd.
    apply andb_true_iff in Hd as [Hd Hd']. apply Z.ltb_lt in Hd.
    apply negb_true_iff, andb_false_iff in Hd'.
    rewrite !Z.leb_gt in Hd'.
    unfold canonicalize. cbv zeta.
    set (n := Z.of_N (N_of_ascii c)) in *. set (m := Z.of_N (N_of_ascii d)) in *.
    repeat (match goal with
            | |- context [?a <=? ?b] => destruct (Z.leb_spec a b)
            | |- context [?a =? ?b] => destruct (Z.eqb_spec a b)
            end; cbn [andb negb]; try lia). }
  destruct (Z.eqb_spec (canonicalize c) (canonicalize d)) as [E | E],
           (Ascii.eqb_spec (lower_case c) d) as [E' | E']; try reflexivity.
  - exfalso. apply E'. apply Hiff in E. apply N2Z.inj in E.
    rewrite <- (ascii_N_embedding (lower_case c)), E. apply ascii_N_embedding.
  - exfalso. apply E, Hiff. now rewrite E'.
Qed.

Lemma same_ignoring_case_lower (p url : string) :
  plain_lower p = true -> same_ignoring_case url p = String.eqb (lower url) p.
Proof.
  revert url. induction p as [|d p IH]; intros [|c url] Hp;
    cbn [same_ignoring_case lower String.eqb]; try reflexivity.
  cbn [plain_lower] in Hp. apply andb_true_iff in Hp as [Hd Hp].
  rewrite canonicalize_lower, IH by assumption.
  now destruct (Ascii.eqb (lower_case c) d).
Qed.

Lemma plain_lower_slash (p : string) :
  plain_lower p = true -> plain_lower (p +:+ "/") = true.
Proof.
  induction p as [|d p IH]; intros Hp; [reflexivity|].
  cbn [plain_lower] in Hp. apply andb_true_iff in Hp as [Hd Hp].
  change (plain_lower_char d && plain_lower (p +:+ "/") = true).
  now rewrite Hd, IH.
Qed.

(** A route for a path without capital letters takes the paths that
    are that path in lower case, with or without a slash at the end. *)
Lemma path_matches_on_path (p url : string) :
  plain_lower p = true -> path_matches p url = on_path p url.
Proof.
  intros Hp. unfold path_matches, on_path.
  now rewrite !same_ignoring_case_lower by auto using plain_lower_slash.
Qed.

Lemma on_path_add_subtract (url : string) :
  on_path "/add" url = true -> on_path "/subtract" url = false.
Proof.
  unfold on_path. intros H. apply orb_true_iff in H as [H | H];
    apply String.eqb_eq in H; rewrite H; reflexivity.
Qed.

(** ** Dispatch *)

Lemma dispatch_use_responded n fn rest req res res' :
  fn req res = Responded res' ->
  dispatch (use n fn :: rest) req res = ([n], res').
Proof. intros H. unfold dispatch. simpl. now rewrite H. Qed.

Lemma dispatch_use_next n fn rest req res req' res' :
  fn req res = CallNext req' res' ->
  dispatch (use n fn :: rest) req res =
    (n :: fst (dispatch rest req' res'), snd (dispatch rest req' res')).
Proof.
  intros H. unfold dispatch. simpl. rewrite H.
  now destruct (dispatch_from [] rest req' res').
Qed.

Lemma serve_nth (stack : list layer) (before after : list incoming) (r : incoming) :
  nth_error (serve stack (before ++ r :: after)) (length before)
  = Some (snd (respond stack r)).
Proof.
  unfold serve. rewrite map_app. simpl.
  rewrite nth_error_app2; rewrite length_map; [|lia].
  now rewrite Nat.sub_diag.
Qed.

(** ** The process between requests *)

Lemma process_dispatch_settled (w : process) (pstack : list process_layer)
    (stack : list layer) :
  Forall2 (settled w) pstack stack ->
  forall options req res,
    process_dispatch options pstack w req res
    = (w, dispatch_from options stack req res).
Proof.
  induction 1 as [|pl l pstack stack (Hn & Hm & Hh) _ IH]; intros options req res.
  - reflexivity.
  - cbn [process_dispatch dispatch_from]. rewrite Hm, Hn, Hh.
    destruct (visit (mounted l) options req) as [options'|].
    + apply IH.
    + destruct (handle l req res) as [res' | req' res']; [reflexivity|].
      rewrite IH. now destruct (dispatch_from options stack req' res').
Qed.

Lemma run_settled (w : process) (pstack : list process_layer)
    (stack : list layer) (log : list incoming) :
  Forall2 (settled w) pstack stack ->
  run pstack w log = (serve stack log, w).
Proof.
  intros H. induction log as [|r later IH]; [reflexivity|].
  cbn [run]. rewrite (process_dispatch_settled w pstack stack H).
  unfold serve in *. cbn [map]. unfold respond at 1, dispatch.
  destruct (dispatch_from [] stack (fresh_request r) fresh_response) as [ran out].
  now rewrite IH.
Qed.

(** The handlers of the program hand the process on as they got it. *)
Lemma running_app_settled (w : process) :
  Forall2 (settled w) running_app (app (add_binding w) (subtract_binding w)).
Proof. repeat constructor. Qed.

Lemma running_app_with_validation_settled (w : process) :
  Forall2 (settled w) running_app_with_validation
    (app_with_validation (add_binding w) (subtract_binding w)).
Proof. repeat constructor. Qed.

(** A stack that does keep state is told apart: with the counting
    middleware in the place of the validation, two equal requests get
    different responses. *)
Lemma counting_keeps_state (r : incoming) :
  let stack := [ProcessLayer Validation Everywhere counting] in
  let answers := fst (run stack (loaded add subtract) [r; r]) in
  nth_error answers 0 <> nth_error answers 1.
Proof. cbv zeta. intros H. vm_compute in H. discriminate. Qed.

Lemma calc_request_query (p a b : string) :
  in_query (calc_request p a b) !! "a"%string = Some a /\
  in_query (calc_request p a b) !! "b"%string = Some b.
Proof.
  unfold calc_request; simpl. split.
  - now rewrite lookup_insert_eq.
  - rewrite lookup_insert_ne by discriminate. now rewrite lookup_singleton_eq.
Qed.

(** ** app.js as it is *)

Section AppAsWritten.

Variables lib_add lib_subtract : value -> value -> value.

Let stack := app lib_add lib_subtract.

(** A fresh [req] has no [a] and no [b]. *)
Lemma fresh_request_operands (r : incoming) (k : string) :
  get_prop (fresh_request r) k = Undefined.
Proof. unfold get_prop, fresh_request; simpl. now rewrite lookup_empty. Qed.

(** The ways a request goes through app.js. *)
Lemma app_dispatch (req : request) (res : response) :
  dispatch stack req res =
    if on_path "/add" (path req) then
      match method req with
      | GET | HEAD =>
          ([RouteAdd],
           res_json (result_object
                       (lib_add (get_prop req "a") (get_prop req "b"))) res)
      | OPTIONS => ([], send_options route_options res)
      | _ => ([], finalhandler res)
      end
    else if on_path "/subtract" (path req) then
      match method req with
      | GET | HEAD =>
          ([RouteSubtract],
           res_json (result_object
                       (lib_subtract (get_prop req "a") (get_prop req "b"))) res)
      | OPTIONS => ([], send_options route_options res)
      | _ => ([], finalhandler res)
      end
    else ([], finalhandler res).
Proof.
  unfold stack, app, dispatch.
  cbn [dispatch_from get mounted visit handle name].
  rewrite !path_matches_on_path by reflexivity.
  destruct (on_path "/add" (path req)) eqn:Ha.
  - rewrite (on_path_add_subtract _ Ha).
    unfold unanswered. destruct (method req); reflexivity.
  - destruct (on_path "/subtract" (path req));
      unfold unanswered; destruct (method req); reflexivity.
Qed.

Lemma app_respond (r : incoming) :
  respond stack r =
    if on_path "/add" (in_path r) then
      match in_method r with
      | GET | HEAD => ([RouteAdd], ok (result_object (lib_add Undefined Undefined)))
      | OPTIONS => ([], allow_get)
      | _ => ([], finalhandler fresh_response)
      end
    else if on_path "/subtract" (in_path r) then
      match in_method r with
      | GET | HEAD =>
          ([RouteSubtract], ok (result_object (lib_subtract Undefined Undefined)))
      | OPTIONS => ([], allow_get)
      | _ => ([], finalhandler fresh_response)
      end
    else ([], finalhandler fresh_response).
Proof.
  unfold respond. rewrite app_dispatch, !fresh_request_operands. reflexivity.
Qed.

Lemma app_dispatch_add (req : request) (res : response) :
  method req = GET -> path req = "/add"%string ->
  dispatch stack req res
  = ([RouteAdd],
     res_json (result_object (lib_add (get_prop req "a") (get_prop req "b"))) res).
Proof. intros Hm Hp. rewrite app_dispatch, Hm, Hp. reflexivity. Qed.

Lemma app_dispatch_subtract (req : request) (res : response) :
  method req = GET -> path req = "/subtract"%string ->
  dispatch stack req res
  = ([RouteSubtract],
     res_json (result_object
                 (lib_subtract (get_prop req "a") (get_prop req "b"))) res).
Proof. intros Hm Hp. rewrite app_dispatch, Hm, Hp. reflexivity. Qed.

Lemma app_never_validates (r : incoming) :
  ~ In Validation (fst (respond stack r)).
Proof.
  rewrite app_respond.
  destruct (on_path "/add" (in_path r)), (on_path "/subtract" (in_path r)),
    (in_method r); simpl; intuition discriminate.
Qed.

Lemma app_add_route (q : gmap string string) :
  respond stack (Incoming GET "/add" q)
  = ([RouteAdd], ok (result_object (lib_add Undefined Undefined))).
Proof. now rewrite app_respond. Qed.

Lemma app_subtract_route (q : gmap string string) :
  respond stack (Incoming GET "/subtract" q)
  = ([RouteSubtract], ok (result_object (lib_subtract Undefined Undefined))).
Proof. now rewrite app_respond. Qed.

End AppAsWritten.

(** ** app.js with the middleware in front *)

Section AppWithValidation.

Variables lib_add lib_subtract : value -> value -> value.

Let stack := app_with_validation lib_add lib_subtract.

Lemma validated_reject (r : incoming) :
  ToBoolean (operand (fresh_request r) "a") = false \/
  ToBoolean (operand (fresh_request r) "b") = false ->
  respond stack r = ([Validation], unprocessable).
Proof.
  intros H. unfold respond, stack, app_with_validation.
  apply dispatch_use_responded. now rewrite validation_failure.
Qed.

Lemma validated_add (q : gmap string string) :
  let r := Incoming GET "/add" q in
  let a := operand (fresh_request r) "a" in
  let b := operand (fresh_request r) "b" in
  ToBoolean a = true -> ToBoolean b = true ->
  respond stack r
  = ([Validation; RouteAdd], ok (result_object (lib_add (Num a) (Num b)))).
Proof.
  intros r a b Ha Hb. unfold respond, stack, app_with_validation.
  rewrite (dispatch_use_next _ _ _ _ _ _ _ (validation_success _ _ Ha Hb)).
  rewrite app_dispatch_add by reflexivity.
  destruct (validated_operands (fresh_request r) (Num a) (Num b)) as [Ea Eb].
  fold a b. cbn [fst snd]. now rewrite Ea, Eb.
Qed.

Lemma validated_subtract (q : gmap string string) :
  let r := Incoming GET "/subtract" q in
  let a := operand (fresh_request r) "a" in
  let b := operand (fresh_request r) "b" in
  ToBoolean a = true -> ToBoolean b = true ->
  respond stack r
  = ([Validation; RouteSubtract],
     ok (result_object (lib_subtract (Num a) (Num b)))).
Proof.
  intros r a b Ha Hb. unfold respond, stack, app_with_validation.
  rewrite (dispatch_use_next _ _ _ _ _ _ _ (validation_success _ _ Ha Hb)).
  rewrite app_dispatch_subtract by reflexivity.
  destruct (validated_operands (fresh_request r) (Num a) (Num b)) as [Ea Eb].
  fold a b. cbn [fst snd]. now rewrite Ea, Eb.
Qed.

(** With the middleware in front, validation runs first on every
    request, and a route handler runs only behind a validation that
    found two numbers other than NaN and zero. *)
Lemma validated_handler_order (r : incoming) (st : stage) :
  In st (fst (respond stack r)) ->
  hd_error (fst (respond stack r)) = Some Validation /\
  (st <> Validation ->
   ToBoolean (operand (fresh_request r) "a") = true /\
   ToBoolean (operand (fresh_request r) "b") = true).
Proof.
  destruct (ToBoolean (operand (fresh_request r) "a")) eqn:Ha;
    [destruct (ToBoolean (operand (fresh_request r) "b")) eqn:Hb|].
  - intros _. split; [|auto].
    unfold respond, stack, app_with_validation.
    now rewrite (dispatch_use_next _ _ _ _ _ _ _ (validation_success _ _ Ha Hb)).
  - rewrite validated_reject by auto. simpl.
    intros [<- | []]. split; [reflexivity|congruence].
  - rewrite validated_reject by auto. simpl.
    intros [<- | []]. split; [reflexivity|congruence].
Qed.

End AppWithValidation.

(** ** Requests that carry integers *)

Lemma operand_decimal (p : string) (a b : Z) :
  a <> 0 -> b <> 0 ->
  operand (fresh_request (calc_request p (decimal a) (decimal b))) "a" = of_int a /\
  operand (fresh_request (calc_request p (decimal a) (decimal b))) "b" = of_int b.
Proof.
  intros Ha Hb. unfold operand, fresh_request. cbn [query].
  destruct (calc_request_query p (decimal a) (decimal b)) as [-> ->].
  cbn [ToString]. now rewrite !parseInt_decimal.
Qed.

(** With the middleware in front, the add route answers with the sum of
    the two Numbers, whatever the size of the integers. *)
Lemma validated_add_integers (a b : Z) :
  a <> 0 -> b <> 0 ->
  respond (app_with_validation add subtract)
    (calc_request "/add" (decimal a) (decimal b))
  = ([Validation; RouteAdd],
     ok [("result"%string, json_number (number_add (of_int a) (of_int b)))]).
Proof.
  intros Ha Hb. destruct (operand_decimal "/add" a b Ha Hb) as [Ea Eb].
  unfold calc_request in *. rewrite validated_add.
  - now rewrite Ea, Eb.
  - rewrite Ea. now apply of_int_truthy.
  - rewrite Eb. now apply of_int_truthy.
Qed.

Lemma validated_subtract_integers (a b : Z) :
  a <> 0 -> b <> 0 ->
  respond (app_with_validation add subtract)
    (calc_request "/subtract" (decimal a) (decimal b))
  = ([Validation; RouteSubtract],
     ok [("result"%string, json_number (number_subtract (of_int a) (of_int b)))]).
Proof.
  intros Ha Hb. destruct (operand_decimal "/subtract" a b Ha Hb) as [Ea Eb].
  unfold calc_request in *. rewrite validated_subtract.
  - now rewrite Ea, Eb.
  - rewrite Ea. now apply of_int_truthy.
  - rewrite Eb. now apply of_int_truthy.
Qed.

(** With the middleware in front, a zero operand is answered with 422. *)
Lemma validated_zero_rejected (p : string) (b : Z) :
  respond (app_with_validation add subtract)
    (calc_request p (decimal 0) (decimal b))
  = ([Validation], unprocessable).
Proof.
  apply validated_reject. left. unfold operand, fresh_request. cbn [query].
  destruct (calc_request_query p (decimal 0) (decimal b)) as [-> _].
  reflexivity.
Qed.

(** * The claims *)

(** C1, on app.js: no request ever passes the validation stage, and
    GET /add?a=string&b=2 goes straight to the add handler, which reads
    two undefined operands and answers 200. *)
Theorem app_handler_runs_unvalidated
    (lib_add lib_subtract : value -> value -> value) :
  (forall r : incoming,
     ~ In Validation (fst (respond (app lib_add lib_subtract) r))) /\
  respond (app lib_add lib_subtract) (calc_request "/add" "string" "2")
  = ([RouteAdd], ok (result_object (lib_add Undefined Undefined))).
Proof.
  split.
  - apply app_never_validates.
  - apply app_add_route.
Qed.

(** C2. When [a] or [b] is missing, not numeric or zero, the middleware
    answers 422 with the plain-text message, and no stage behind it
    runs, whatever those stages are. *)
Theorem validation_rejects_invalid_params
    (downstream : list layer) (r : incoming) :
  invalid_param (in_query r !! "a"%string) \/
  invalid_param (in_query r !! "b"%string) ->
  respond (use Validation validation :: downstream) r
  = ([Validation], unprocessable).
Proof.
  intros H. unfold respond. apply dispatch_use_responded.
  rewrite validation_failure; [reflexivity|].
  unfold operand; simpl.
  destruct H as [H | H]; [left | right]; now apply invalid_param_not_truthy.
Qed.

Lemma validation_rejects_invalid_params_witness :
  respond (use Validation validation :: app add subtract)
    (calc_request "/add" "string" "2")
  = ([Validation], unprocessable).
Proof.
  apply validation_rejects_invalid_params.
  left. apply (param_non_numeric "string"). reflexivity.
Defined.

(** C3, as stated, fails at a = 9007199254740993, b = 1: the result is
    not a + b in app.js (with the finished lib/add.js or with the stub),
    and not with the middleware in front either, where [parseInt]
    rounds [a] to 9007199254740992 and the sum stays there. *)
Lemma add_route_counterexample :
  let r := calc_request "/add" (decimal 9007199254740993) (decimal 1) in
  let claimed (out : response) :=
    exists x : number,
      out = ok [("result"%string, JNumber x)] /\
      to_int x = Some (9007199254740993 + 1) in
  ~ claimed (snd (respond (app add subtract) r)) /\
  ~ claimed (snd (respond (app add_stub subtract_stub) r)) /\
  ~ claimed (snd (respond (app_with_validation add subtract) r)).
Proof.
  cbv zeta. split; [|split]; intros (x & Hout & Hx).
  - vm_compute in Hout. discriminate.
  - vm_compute in Hout. injection Hout as <-. vm_compute in Hx. discriminate.
  - vm_compute in Hout. injection Hout as <-. vm_compute in Hx. discriminate.
Qed.

(** C3, amended. For nonzero integers a and b with a, b and a + b
    safe (below 2^53 in magnitude), a GET /add?a=a&b=b that goes
    through the validation middleware and then the add route is
    answered 200 with [{ result : a + b }]. *)
Theorem validated_add_safe_integers (a b : Z) :
  a <> 0 -> b <> 0 ->
  safe_integer a -> safe_integer b -> safe_integer (a + b) ->
  respond (app_with_validation add subtract)
    (calc_request "/add" (decimal a) (decimal b))
  = ([Validation; RouteAdd], ok [("result"%string, JNumber (of_int (a + b)))])
  /\ to_int (of_int (a + b)) = Some (a + b).
Proof.
  intros Ha Hb Sa Sb Sab. split.
  - rewrite validated_add_integers, number_add_safe by assumption.
    now rewrite json_number_of_int.
  - now apply to_int_safe.
Qed.

Lemma validated_add_safe_integers_witness :
  respond (app_with_validation add subtract) (calc_request "/add" "1" "1")
  = ([Validation; RouteAdd], ok [("result"%string, JNumber (of_int 2))]).
Proof.
  apply (validated_add_safe_integers 1 1);
    solve [discriminate | reflexivity].
Defined.

(** C4, as stated, fails at a = 9007199254740993, b = 1: the result is
    not a - b in app.js (with the finished lib/subtract.js or with the
    stub), and not with the middleware in front either, where the
    answer is 9007199254740991. *)
Lemma subtract_route_counterexample :
  let r := calc_request "/subtract" (decimal 9007199254740993) (decimal 1) in
  let claimed (out : response) :=
    exists x : number,
      out = ok [("result"%string, JNumber x)] /\
      to_int x = Some (9007199254740993 - 1) in
  ~ claimed (snd (respond (app add subtract) r)) /\
  ~ claimed (snd (respond (app add_stub subtract_stub) r)) /\
  ~ claimed (snd (respond (app_with_validation add subtract) r)).
Proof.
  cbv zeta. split; [|split]; intros (x & Hout & Hx).
  - vm_compute in Hout. discriminate.
  - vm_compute in Hout. injection Hout as <-. vm_compute in Hx. discriminate.
  - vm_compute in Hout. injection Hout as <-. vm_compute in Hx. discriminate.
Qed.

(** C4, amended. For nonzero integers a and b with a, b and a - b
    safe (below 2^53 in magnitude), a GET /subtract?a=a&b=b that goes
    through the validation middleware and then the subtract route is
    answered 200 with [{ result : a - b }]. *)
Theorem validated_subtract_safe_integers (a b : Z) :
  a <> 0 -> b <> 0 ->
  safe_integer a -> safe_integer b -> safe_integer (a - b) ->
  respond (app_with_validation add subtract)
    (calc_request "/subtract" (decimal a) (decimal b))
  = ([Validation; RouteSubtract],
     ok [("result"%string, JNumber (of_int (a - b)))])
  /\ to_int (of_int (a - b)) = Some (a - b).
Proof.
  intros Ha Hb Sa Sb Sab. split.
  - rewrite validated_subtract_integers, number_subtract_safe by assumption.
    now rewrite json_number_of_int.
  - now apply to_int_safe.
Qed.

Lemma validated_subtract_safe_integers_witness :
  respond (app_with_validation add subtract) (calc_request "/subtract" "5" "4")
  = ([Validation; RouteSubtract], ok [("result"%string, JNumber (of_int 1))]).
Proof.
  apply (validated_subtract_safe_integers 5 4);
    solve [discriminate | reflexivity].
Defined.

(** C5, as stated, fails at a = 2^53, b = 1, two Numbers that hold
    these integers: [add] returns the Number that holds 2^53, not
    2^53 + 1, and at a = -2^53, b = 1 [subtract] returns the Number
    that holds -2^53, not -2^53 - 1. *)
Lemma lib_arithmetic_counterexample :
  let holds (v : value) (z : Z) :=
    exists n : number, v = Num n /\ to_int n = Some z in
  holds (Num (of_int (2 ^ 53))) (2 ^ 53) /\
  holds (Num (of_int (- 2 ^ 53))) (- 2 ^ 53) /\
  holds (Num (of_int 1)) 1 /\
  ~ holds (add (Num (of_int (2 ^ 53))) (Num (of_int 1))) (2 ^ 53 + 1) /\
  ~ holds (subtract (Num (of_int (- 2 ^ 53))) (Num (of_int 1))) (- 2 ^ 53 - 1).
Proof.
  cbv zeta. repeat split.
  - eexists. split; reflexivity.
  - eexists. split; reflexivity.
  - eexists. split; reflexivity.
  - intros (n & Hn & Hz). vm_compute in Hn. injection Hn as <-.
    vm_compute in Hz. discriminate.
  - intros (n & Hn & Hz). vm_compute in Hn. injection Hn as <-.
    vm_compute in Hz. discriminate.
Qed.

(** C5, amended. On two Numbers that hold safe integers a and b (below
    2^53 in magnitude), [add] returns a Number that holds a + b when
    a + b is safe, and [subtract] a Number that holds a - b when a - b
    is safe. *)
Theorem lib_arithmetic_safe_integers (a b : Z) :
  safe_integer a -> safe_integer b ->
  to_int (of_int a) = Some a /\ to_int (of_int b) = Some b /\
  (safe_integer (a + b) ->
   exists n : number,
     add (Num (of_int a)) (Num (of_int b)) = Num n /\ to_int n = Some (a + b)) /\
  (safe_integer (a - b) ->
   exists n : number,
     subtract (Num (of_int a)) (Num (of_int b)) = Num n /\
     to_int n = Some (a - b)).
Proof.
  intros Sa Sb. repeat split; try (now apply to_int_safe).
  - intros Sab. exists (of_int (a + b)). split; [|now apply to_int_safe].
    unfold add. cbn [ToNumber]. now rewrite number_add_safe.
  - intros Sab. exists (of_int (a - b)). split; [|now apply to_int_safe].
    unfold subtract. cbn [ToNumber]. now rewrite number_subtract_safe.
Qed.

(** The values of the unit tests: add(1,1) is 2, add(-2,-2) is -4 and
    subtract(5,4) is 1. *)
Lemma lib_arithmetic_safe_integers_witness :
  (exists n : number,
     add (Num (of_int 1)) (Num (of_int 1)) = Num n /\ to_int n = Some 2) /\
  (exists n : number,
     add (Num (of_int (-2))) (Num (of_int (-2))) = Num n /\
     to_int n = Some (-4)) /\
  (exists n : number,
     subtract (Num (of_int 5)) (Num (of_int 4)) = Num n /\ to_int n = Some 1).
Proof.
  split; [|split].
  - destruct (lib_arithmetic_safe_integers 1 1) as (_ & _ & H & _);
      [reflexivity..|]. apply H. reflexivity.
  - destruct (lib_arithmetic_safe_integers (-2) (-2)) as (_ & _ & H & _);
      [reflexivity..|]. apply H. reflexivity.
  - destruct (lib_arithmetic_safe_integers 5 4) as (_ & _ & _ & H);
      [reflexivity..|]. apply H. reflexivity.
Defined.

(** C6. When both parameters parse to numbers that are neither NaN nor
    zero, the middleware sets [req.a] and [req.b] to the parsed numbers,
    leaves every other part of [req] and all of [res] as it was, and
    calls [next]. *)
Theorem validation_success_frame (req : request) (res : response) :
  let a := parseInt (ToString (query req !! "a"%string)) in
  let b := parseInt (ToString (query req !! "b"%string)) in
  isNaN a = false -> is_zero a = false ->
  isNaN b = false -> is_zero b = false ->
  exists req' : request,
    validation req res = CallNext req' res /\
    props req' !! "a"%string = Some (Num a) /\
    props req' !! "b"%string = Some (Num b) /\
    (forall k : string, k <> "a"%string -> k <> "b"%string ->
       props req' !! k = props req !! k) /\
    method req' = method req /\ path req' = path req /\
    query req' = query req.
Proof.
  intros a b Ha Za Hb Zb.
  eexists. split.
  - apply validation_success; apply ToBoolean_true; split; assumption.
  - simpl. repeat split.
    + rewrite lookup_insert_ne by discriminate. apply lookup_insert_eq.
    + apply lookup_insert_eq.
    + intros k Hka Hkb. rewrite !lookup_insert_ne by congruence. reflexivity.
Qed.

Lemma validation_success_frame_witness :
  exists req' : request,
    validation (fresh_request (calc_request "/subtract" "5" "4")) fresh_response
    = CallNext req' fresh_response /\
    props req' !! "a"%string = Some (Num (of_int 5)) /\
    props req' !! "b"%string = Some (Num (of_int 4)).
Proof.
  destruct (validation_success_frame
              (fresh_request (calc_request "/subtract" "5" "4")) fresh_response)
    as (req' & Hv & Ha & Hb & _); try reflexivity.
  exists req'. repeat split; assumption.
Defined.

(** C7. No state builds up between requests. Whatever the process
    holds and whatever requests came before, app.js as it is and
    app.js with the middleware in front hand the process on as they
    got it; so two equal requests get equal responses at any two
    places of any two request logs, namely the response of the
    pipeline to that request alone. *)
Theorem pipeline_keeps_no_state
    (w : process) (before1 after1 before2 after2 : list incoming)
    (r : incoming) :
  let answer stack log n := nth_error (fst (run stack w log)) n in
  (forall log, snd (run running_app w log) = w) /\
  (forall log, snd (run running_app_with_validation w log) = w) /\
  answer running_app (before1 ++ r :: after1) (length before1)
  = answer running_app (before2 ++ r :: after2) (length before2) /\
  answer running_app_with_validation (before1 ++ r :: after1) (length before1)
  = answer running_app_with_validation (before2 ++ r :: after2)
      (length before2) /\
  answer running_app (before1 ++ r :: after1) (length before1)
  = Some (snd (respond (app (add_binding w) (subtract_binding w)) r)) /\
  answer running_app_with_validation (before1 ++ r :: after1) (length before1)
  = Some (snd (respond (app_with_validation (add_binding w)
                          (subtract_binding w)) r)).
Proof.
  cbv zeta.
  pose proof (fun log => run_settled w _ _ log (running_app_settled w)) as Happ.
  pose proof (fun log => run_settled w _ _ log
                           (running_app_with_validation_settled w)) as Hval.
  repeat split; intros; rewrite ?Happ, ?Hval; cbn [fst snd];
    now rewrite ?serve_nth.
Qed.

(** C8, on app.js: a request whose [a] is missing is not answered with
    422; it reaches the add handler, which answers 200. *)
Theorem app_invalid_request_reaches_handler
    (lib_add lib_subtract : value -> value -> value) :
  let r := Incoming GET "/add" {[ "b"%string := "2"%string ]} in
  invalid_param (in_query r !! "a"%string) /\
  respond (app lib_add lib_subtract) r
  = ([RouteAdd], ok (result_object (lib_add Undefined Undefined))).
Proof.
  intros r. split.
  - apply param_missing.
  - apply app_add_route.
Qed.

(** C9. A parameter made of an integer literal other than zero and of
    anything that does not go on with a digit (3.9, 5abc) is accepted:
    the middleware calls [next] with [req.a] and [req.b] set to the
    Numbers of the two literals, which hold the integers of the
    literals (3 and 5) when these are safe. *)
Theorem validation_accepts_numeric_prefix
    (req : request) (res : response) (pa ra pb rb : string) :
  integer_literal pa = true -> starts_with_decimal ra = false ->
  literal_int pa <> 0 ->
  integer_literal pb = true -> starts_with_decimal rb = false ->
  literal_int pb <> 0 ->
  query req !! "a"%string = Some (pa +:+ ra) ->
  query req !! "b"%string = Some (pb +:+ rb) ->
  exists (req' : request) (na nb : number),
    validation req res = CallNext req' res /\
    props req' !! "a"%string = Some (Num na) /\
    props req' !! "b"%string = Some (Num nb) /\
    na = of_int (literal_int pa) /\ nb = of_int (literal_int pb) /\
    (safe_integer (literal_int pa) -> to_int na = Some (literal_int pa)) /\
    (safe_integer (literal_int pb) -> to_int nb = Some (literal_int pb)).
Proof.
  intros La Ra Za Lb Rb Zb Qa Qb.
  assert (Ea : operand req "a" = of_int (literal_int pa)).
  { unfold operand. rewrite Qa. now apply parseInt_numeric_prefix. }
  assert (Eb : operand req "b" = of_int (literal_int pb)).
  { unfold operand. rewrite Qb. now apply parseInt_numeric_prefix. }
  eexists _, (of_int (literal_int pa)), (of_int (literal_int pb)).
  split; [|repeat split].
  - rewrite validation_success; rewrite ?Ea, ?Eb; auto using of_int_truthy.
  - cbn [props set_prop].
    rewrite lookup_insert_ne by discriminate. apply lookup_insert_eq.
  - cbn [props set_prop]. apply lookup_insert_eq.
  - apply to_int_safe.
  - apply to_int_safe.
Qed.

Lemma validation_accepts_numeric_prefix_witness :
  exists (req' : request) (na nb : number),
    validation (fresh_request (calc_request "/add" "3.9" "5abc")) fresh_response
    = CallNext req' fresh_response /\
    props req' !! "a"%string = Some (Num na) /\
    props req' !! "b"%string = Some (Num nb) /\
    to_int na = Some 3 /\ to_int nb = Some 5.
Proof.
  destruct (validation_accepts_numeric_prefix
              (fresh_request (calc_request "/add" "3.9" "5abc")) fresh_response
              "3" ".9" "5" "abc")
    as (req' & na & nb & Hv & Pa & Pb & _ & _ & Ta & Tb);
    try solve [discriminate | reflexivity].
  exists req', na, nb. repeat split; try assumption.
  - apply Ta. reflexivity.
  - apply Tb. reflexivity.
Defined.

(** C10. The [isNaN] tests add nothing to [!a || !b]: with or without
    them the middleware gives the same response and the same [req]. *)
Theorem validation_isNaN_redundant (req : request) (res : response) :
  validation req res = validation_short req res.
Proof.
  unfold validation, validation_short.
  destruct (parseInt (ToString (query req !! "a"%string)));
    destruct (parseInt (ToString (query req !! "b"%string))); reflexivity.
Qed.

(** * Further properties *)

(** ** app.js as written *)

(** X1. app.js answers 200 to the GET, HEAD and OPTIONS requests for
    /add and /subtract, in any case of the letters and with or without
    a slash at the end of the path, and 404 to every other request; it
    never answers 422 and never runs more than one stage. *)
Theorem app_status_codes
    (lib_add lib_subtract : value -> value -> value) (r : incoming) :
  let out := respond (app lib_add lib_subtract) r in
  statusCode (snd out) = (if routed r then 200 else 404) /\
  statusCode (snd out) <> 422 /\
  (length (fst out) <= 1)%nat.
Proof.
  cbv zeta. rewrite app_respond. unfold routed.
  destruct (on_path "/add" (in_path r)), (on_path "/subtract" (in_path r)),
    (in_method r); cbn; repeat split; lia.
Qed.

(** X2. The answer of app.js does not depend on the query string. *)
Theorem app_ignores_query
    (lib_add lib_subtract : value -> value -> value)
    (m : http_method) (p : string) (q q' : gmap string string) :
  respond (app lib_add lib_subtract) (Incoming m p q)
  = respond (app lib_add lib_subtract) (Incoming m p q').
Proof. now rewrite !app_respond. Qed.

(** ** The tests of the README *)

Lemma result_number_iff (v : value) :
  result_is_number (ok (result_object v)) = true <->
  exists n : number, v = Num n /\ is_finite n = true.
Proof.
  destruct v as [|n].
  - split; [discriminate|]. intros (n & H & _). discriminate.
  - split.
    + intros H. exists n. split; [reflexivity|]. destruct n; try discriminate; reflexivity.
    + intros (n' & [= <-] & Hf). destruct n; try discriminate; reflexivity.
Qed.

(** X3. Against app.js as written, with any lib/add.js and
    lib/subtract.js: the test that expects 200 passes, the test that
    expects 422 for a=string fails, and the subtraction test passes
    exactly when [subtract(undefined, undefined)] is a finite Number. *)
Theorem integration_tests_on_app
    (lib_add lib_subtract : value -> value -> value) :
  addition_should_accept_numbers (app lib_add lib_subtract) = true /\
  addition_should_reject_strings (app lib_add lib_subtract) = false /\
  (addition_should_respond_with_a_numeric_result (app lib_add lib_subtract) = true
   <-> exists n : number,
         lib_subtract Undefined Undefined = Num n /\ is_finite n = true).
Proof.
  unfold addition_should_accept_numbers, addition_should_reject_strings,
    addition_should_respond_with_a_numeric_result, calc_request.
  rewrite !app_add_route, app_subtract_route. cbn [snd].
  split; [reflexivity|]. split; [reflexivity|].
  change (expect 200 (ok (result_object (lib_subtract Undefined Undefined))))
    with true.
  cbn [andb]. apply result_number_iff.
Qed.

(** X4. Against app.js with the middleware in front of the routes,
    with any lib/add.js and lib/subtract.js: both addition tests pass,
    and the subtraction test passes exactly when [subtract(5, 4)] is a
    finite Number, as it is for the stub that returns 0. *)
Theorem integration_tests_on_validated_app
    (lib_add lib_subtract : value -> value -> value) :
  addition_should_accept_numbers (app_with_validation lib_add lib_subtract) = true /\
  addition_should_reject_strings (app_with_validation lib_add lib_subtract) = true /\
  (addition_should_respond_with_a_numeric_result
     (app_with_validation lib_add lib_subtract) = true
   <-> exists n : number,
         lib_subtract (Num (of_int 5)) (Num (of_int 4)) = Num n /\
         is_finite n = true).
Proof.
  unfold addition_should_accept_numbers, addition_should_reject_strings,
    addition_should_respond_with_a_numeric_result, calc_request.
  rewrite validated_add by reflexivity.
  rewrite validated_reject by (left; reflexivity).
  rewrite validated_subtract by reflexivity.
  cbn [snd]. split; [reflexivity|]. split; [reflexivity|].
  match goal with
  | |- context [expect 200 (ok ?o)] => change (expect 200 (ok o)) with true
  end.
  cbn [andb]. apply result_number_iff.
Qed.

Lemma strict_equals_two_and_minus_four (v : value) :
  strict_equals v (Num (of_int 2)) = true ->
  strict_equals v (Num (of_int (-4))) = true -> False.
Proof.
  destruct v as [|[s|s| |s m e]]; try discriminate.
  - destruct s; discriminate.
  - destruct s; discriminate.
Qed.

(** X5. No implementation of lib/add.js that ignores its arguments, as
    the stub does, passes both unit tests. *)
Theorem constant_add_fails_unit_tests (lib_add : value -> value -> value) :
  (forall a b a' b' : value, lib_add a b = lib_add a' b') ->
  it_should_add_two_numbers lib_add = false \/
  it_should_add_two_negative_numbers lib_add = false.
Proof.
  intros Hconst. unfold it_should_add_two_numbers, it_should_add_two_negative_numbers.
  rewrite (Hconst (Num (of_int (-2))) (Num (of_int (-2)))
                  (Num (of_int 1)) (Num (of_int 1))).
  destruct (strict_equals _ (Num (of_int 2))) eqn:E1; [|now left].
  destruct (strict_equals _ (Num (of_int (-4)))) eqn:E2; [|now right].
  exfalso. eapply strict_equals_two_and_minus_four; eassumption.
Qed.

Lemma constant_add_fails_unit_tests_witness :
  it_should_add_two_numbers add_stub = false \/
  it_should_add_two_negative_numbers add_stub = false.
Proof. apply constant_add_fails_unit_tests. reflexivity. Defined.

(** ** More on the validation middleware *)

Lemma validation_reads (req : request) (res : response) (na nb : number) :
  operand req "a" = na -> operand req "b" = nb ->
  ToBoolean na = true -> ToBoolean nb = true ->
  validation req res =
    CallNext (set_prop "b" (Num nb) (set_prop "a" (Num na) req)) res.
Proof. intros <- <- Ha Hb. now apply validation_success. Qed.

Lemma validation_turns_down (req : request) (res : response) :
  invalid_param (query req !! "a"%string) \/
  invalid_param (query req !! "b"%string) ->
  validation req res = Responded unprocessable.
Proof.
  intros H. rewrite validation_failure; [reflexivity|].
  unfold operand. destruct H as [H | H]; [left | right];
    now apply invalid_param_not_truthy.
Qed.

(** X6. Zero is turned down in every spelling as a signed decimal
    literal (0, -0, +0, 000), in either parameter: on a [res] to which
    nothing has been written the answer is the 422 response. *)
Theorem validation_rejects_zero_literal
    (req : request) (res : response) (p : string) :
  integer_literal p = true -> literal_int p = 0 ->
  query req !! "a"%string = Some p \/ query req !! "b"%string = Some p ->
  body res = None ->
  validation req res = Responded unprocessable.
Proof.
  intros Hp Hz Hq _. apply validation_turns_down.
  destruct Hq as [-> | ->]; [left | right]; now apply zero_literal_invalid.
Qed.

Lemma validation_rejects_zero_literal_witness :
  validation (fresh_request (calc_request "/add" "7" "-000")) fresh_response
  = Responded unprocessable /\
  validation (fresh_request (calc_request "/add" "+0" "7")) fresh_response
  = Responded unprocessable.
Proof.
  split.
  - apply (validation_rejects_zero_literal _ _ "-000"); try reflexivity.
    right. reflexivity.
  - apply (validation_rejects_zero_literal _ _ "+0"); try reflexivity.
    left. reflexivity.
Defined.

(** X7. A parameter with no digit behind its leading white space and
    optional sign (the empty string, "-", ".5", "abc") is turned down,
    in either parameter. *)
Theorem validation_rejects_no_digit
    (req : request) (res : response) (s : string) :
  starts_with_decimal (snd (strip_sign (trim_start s))) = false ->
  query req !! "a"%string = Some s \/ query req !! "b"%string = Some s ->
  validation req res = Responded unprocessable.
Proof.
  intros Hs Hq. apply validation_turns_down.
  destruct Hq as [-> | ->]; [left | right]; now apply no_digit_invalid.
Qed.

Lemma validation_rejects_no_digit_witness :
  validation (fresh_request (calc_request "/add" ".5" "2")) fresh_response
  = Responded unprocessable /\
  validation (fresh_request (calc_request "/add" "2" "")) fresh_response
  = Responded unprocessable.
Proof.
  split.
  - apply (validation_rejects_no_digit _ _ ".5"); [reflexivity|]. left. reflexivity.
  - apply (validation_rejects_no_digit _ _ ""); [reflexivity|]. right. reflexivity.
Defined.

Lemma trim_start_white (ws s : string) :
  all_white ws = true -> trim_start (ws +:+ s) = trim_start s.
Proof.
  induction ws as [|c ws IH]; intros H; [reflexivity|].
  cbn [all_white] in H. apply andb_true_iff in H as [Hc Hw].
  change (trim_start (String c (ws +:+ s)) = trim_start s).
  cbn [trim_start]. rewrite Hc. now apply IH.
Qed.

Lemma parseInt_leading_white (ws s : string) :
  all_white ws = true -> parseInt (ws +:+ s) = parseInt s.
Proof. intros H. unfold parseInt. now rewrite trim_start_white. Qed.

Lemma operand_set_query (req : request) (k k' v : string) :
  operand (set_query k v req) k' =
    if decide (k = k') then parseInt v else operand req k'.
Proof.
  unfold operand, set_query; cbn [query]. rewrite lookup_insert.
  destruct (decide (k = k')); reflexivity.
Qed.

(** X8. White space in front of a parameter changes nothing: with or
    without it the middleware gives the same 422, or calls [next] with
    the same properties on [req] and the same [res]. *)
Theorem validation_ignores_leading_white_space
    (req : request) (res : response) (k ws s : string) :
  all_white ws = true ->
  match validation (set_query k (ws +:+ s) req) res,
        validation (set_query k s req) res with
  | Responded out, Responded out' => out = out'
  | CallNext req1 res1, CallNext req2 res2 =>
      props req1 = props req2 /\ res1 = res2
  | _, _ => False
  end.
Proof.
  intros Hw.
  assert (E : forall k', operand (set_query k (ws +:+ s) req) k'
                         = operand (set_query k s req) k').
  { intros k'. rewrite !operand_set_query.
    destruct (decide (k = k')); [now apply parseInt_leading_white|reflexivity]. }
  unfold validation. fold (operand (set_query k (ws +:+ s) req) "a")
    (operand (set_query k (ws +:+ s) req) "b")
    (operand (set_query k s req) "a") (operand (set_query k s req) "b").
  rewrite !E.
  destruct (negb _ || negb _ || _ || _)%bool; [reflexivity|].
  split; reflexivity.
Qed.

Lemma validation_ignores_leading_white_space_witness :
  match validation (set_query "a" ("  " +:+ "12") (fresh_request (calc_request "/add" "1" "3"))) fresh_response,
        validation (set_query "a" "12" (fresh_request (calc_request "/add" "1" "3"))) fresh_response with
  | Responded out, Responded out' => out = out'
  | CallNext req1 res1, CallNext req2 res2 =>
      props req1 = props req2 /\ res1 = res2
  | _, _ => False
  end.
Proof. apply validation_ignores_leading_white_space. reflexivity. Defined.

Lemma radix_digit_hex (c : ascii) :
  radix_digit 16 c = if is_hex_digit c then Some (hex_digit c) else None.
Proof.
  unfold radix_digit, digit_value, is_hex_digit, hex_digit.
  set (n := Z.of_N (N_of_ascii c)).
  repeat match goal with
    | |- context [?a <=? ?b] => destruct (Z.leb_spec a b)
    | |- context [?a <? ?b] => destruct (Z.ltb_spec a b)
    end; cbn; try reflexivity; try lia;
    match goal with
    | |- context [?a <? ?b] => destruct (Z.ltb_spec a b)
    end; try reflexivity; lia.
Qed.

Lemma digit_prefix_hex_app (h r : string) :
  all_hex h = true -> starts_with_hex r = false ->
  digit_prefix 16 (h +:+ r) = digit_prefix 16 h.
Proof.
  intros Hh Hr. induction h as [|c h IH]; simpl in *.
  - destruct r as [|c r]; [reflexivity|]. simpl in *.
    now rewrite radix_digit_hex, Hr.
  - apply andb_true_iff in Hh as [Hc Hh].
    rewrite radix_digit_hex, Hc. f_equal. now apply IH.
Qed.

Lemma digits_int_hex (h : string) (acc : Z) :
  all_hex h = true ->
  fold_left (fun acc d => acc * 16 + d) (digit_prefix 16 h) acc = hex_value acc h.
Proof.
  revert acc. induction h as [|c h IH]; intros acc Hh; simpl in *.
  - reflexivity.
  - apply andb_true_iff in Hh as [Hc Hh].
    rewrite radix_digit_hex, Hc. simpl. now apply IH.
Qed.

(** [parseInt] reads a string that starts with 0x or 0X in radix 16. *)
Lemma parseInt_hex (x : ascii) (h r : string) :
  x = "x"%char \/ x = "X"%char ->
  starts_with_hex h = true -> all_hex h = true ->
  starts_with_hex r = false -> hex_value 0 h <> 0 ->
  parseInt (String "0" (String x (h +:+ r))) = of_int (hex_value 0 h).
Proof.
  intros Hx Hs Hh Hr Hv.
  assert (E : parseInt (String "0" (String x (h +:+ r)))
              = match digit_prefix 16 (h +:+ r) with
                | [] => NaN
                | ds => if digits_int 16 ds =? 0 then pos_zero
                        else of_int (digits_int 16 ds)
                end).
  { destruct Hx as [-> | ->]; reflexivity. }
  rewrite E, digit_prefix_hex_app by assumption.
  pose proof (digits_int_hex h 0 Hh) as Hd.
  fold (digits_int 16 (digit_prefix 16 h)) in Hd.
  destruct (digit_prefix 16 h) as [|z l] eqn:Ep.
  - destruct h as [|c h]; [discriminate|]. simpl in Hs, Ep.
    rewrite radix_digit_hex, Hs in Ep. discriminate.
  - cbv zeta. rewrite Hd.
    destruct (Z.eqb_spec (hex_value 0 h) 0); [contradiction|reflexivity].
Qed.

(** X9. A parameter written in hexadecimal with the prefix 0x or 0X is
    accepted: the middleware calls [next] with its value in radix 16
    (0x1f is 31), reading the digits up to the first character that is
    not a hexadecimal digit. The Number is found as [req.a], and it
    holds that value when the value is safe. *)
Theorem validation_accepts_hex
    (req : request) (res : response) (x : ascii) (h r : string) :
  x = "x"%char \/ x = "X"%char ->
  starts_with_hex h = true -> all_hex h = true ->
  starts_with_hex r = false -> hex_value 0 h <> 0 ->
  query req !! "a"%string = Some (String "0" (String x (h +:+ r))) ->
  ToBoolean (operand req "b") = true ->
  validation req res =
    CallNext (set_prop "b" (Num (operand req "b"))
                (set_prop "a" (Num (of_int (hex_value 0 h))) req)) res /\
  (exists (req' : request) (na : number),
     validation req res = CallNext req' res /\
     props req' !! "a"%string = Some (Num na) /\
     (safe_integer (hex_value 0 h) -> to_int na = Some (hex_value 0 h))).
Proof.
  intros Hx Hs Hh Hr Hv Hq Hb.
  assert (E : validation req res =
              CallNext (set_prop "b" (Num (operand req "b"))
                          (set_prop "a" (Num (of_int (hex_value 0 h))) req)) res).
  { apply validation_reads; auto.
    - unfold operand. rewrite Hq. now apply parseInt_hex.
    - now apply of_int_truthy. }
  split; [exact E|].
  eexists _, (of_int (hex_value 0 h)). split; [exact E|]. split.
  - apply attached_operands.
  - apply to_int_safe.
Qed.

Lemma validation_accepts_hex_witness :
  validation (fresh_request (calc_request "/add" "0x1fz" "2")) fresh_response
  = CallNext
      (set_prop "b" (Num (of_int 2))
         (set_prop "a" (Num (of_int 31))
            (fresh_request (calc_request "/add" "0x1fz" "2"))))
      fresh_response /\
  (exists (req' : request) (na : number),
     validation (fresh_request (calc_request "/add" "0x1fz" "2")) fresh_response
     = CallNext req' fresh_response /\
     props req' !! "a"%string = Some (Num na) /\ to_int na = Some 31).
Proof.
  destruct (validation_accepts_hex
              (fresh_request (calc_request "/add" "0x1fz" "2")) fresh_response
              "x" "1f" "z")
    as (E & req' & na & Hv & Pa & Ta);
    try solve [now left | discriminate | reflexivity].
  split; [exact E|]. exists req', na. repeat split; try assumption.
  apply Ta. reflexivity.
Defined.

Lemma set_prop_twice (req : request) (a b : value) :
  set_prop "b" b (set_prop "a" a (set_prop "b" b (set_prop "a" a req)))
  = set_prop "b" b (set_prop "a" a req).
Proof.
  unfold set_prop; cbn [method path query props]. f_equal.
  apply map_eq. intros k. rewrite !lookup_insert.
  repeat case_decide; congruence.
Qed.

(** The middleware leaves a request it has accepted as it is. *)
Lemma validation_again (req req' : request) (res res' : response) :
  validation req res = CallNext req' res' ->
  validation req' res' = CallNext req' res'.
Proof.
  intros H.
  destruct (ToBoolean (operand req "a")) eqn:Ha;
    [destruct (ToBoolean (operand req "b")) eqn:Hb|].
  - rewrite (validation_success _ _ Ha Hb) in H. injection H as <- <-.
    rewrite validation_success; [apply f_equal2; [apply set_prop_twice|reflexivity]|..];
      assumption.
  - rewrite validation_failure in H by auto. discriminate.
  - rewrite validation_failure in H by auto. discriminate.
Qed.

(** X10. Mounting the middleware twice is the same as mounting it once:
    the second pass changes neither the request nor the answer. *)
Theorem validation_twice (downstream : list layer) (r : incoming) :
  snd (respond (use Validation validation :: use Validation validation
                  :: downstream) r)
  = snd (respond (use Validation validation :: downstream) r).
Proof.
  unfold respond.
  destruct (validation (fresh_request r) fresh_response) as [out | req' res'] eqn:E.
  - now rewrite !(dispatch_use_responded _ _ _ _ _ _ E).
  - rewrite !(dispatch_use_next _ _ _ _ _ _ _ E). cbn [snd].
    now rewrite (dispatch_use_next _ _ _ _ _ _ _ (validation_again _ _ _ _ E)).
Qed.

(** X11. For nonzero safe integers written in decimal, the Numbers the
    middleware attaches to [req], found as [req.a] and [req.b], hold
    exactly those integers. *)
Theorem validation_exact_on_safe_integers
    (req : request) (res : response) (za zb : Z) :
  za <> 0 -> zb <> 0 -> safe_integer za -> safe_integer zb ->
  query req !! "a"%string = Some (decimal za) ->
  query req !! "b"%string = Some (decimal zb) ->
  exists na nb : number,
    validation req res =
      CallNext (set_prop "b" (Num nb) (set_prop "a" (Num na) req)) res /\
    to_int na = Some za /\ to_int nb = Some zb /\
    (exists req' : request,
       validation req res = CallNext req' res /\
       props req' !! "a"%string = Some (Num na) /\
       props req' !! "b"%string = Some (Num nb)).
Proof.
  intros Ha Hb Sa Sb Qa Qb. exists (of_int za), (of_int zb).
  assert (E : validation req res =
              CallNext (set_prop "b" (Num (of_int zb))
                          (set_prop "a" (Num (of_int za)) req)) res).
  { apply validation_reads; try (now apply of_int_truthy);
      unfold operand; rewrite ?Qa, ?Qb; now apply parseInt_decimal. }
  split; [exact E|]. split; [now apply to_int_safe|].
  split; [now apply to_int_safe|].
  eexists. split; [exact E|]. apply attached_operands.
Qed.

Lemma validation_exact_on_safe_integers_witness :
  exists na nb : number,
    validation (fresh_request (calc_request "/add" "-12" "9007199254740991"))
      fresh_response
    = CallNext
        (set_prop "b" (Num nb)
           (set_prop "a" (Num na)
              (fresh_request (calc_request "/add" "-12" "9007199254740991"))))
        fresh_response /\
    to_int na = Some (-12) /\ to_int nb = Some 9007199254740991 /\
    (exists req' : request,
       validation (fresh_request (calc_request "/add" "-12" "9007199254740991"))
         fresh_response
       = CallNext req' fresh_response /\
       props req' !! "a"%string = Some (Num na) /\
       props req' !! "b"%string = Some (Num nb)).
Proof.
  apply (validation_exact_on_safe_integers
           (fresh_request (calc_request "/add" "-12" "9007199254740991"))
           fresh_response (-12) 9007199254740991);
    solve [discriminate | reflexivity].
Defined.

(** An integer of 1025 bits or more is rounded to an infinity. *)
Lemma round_aux_overflow (s : bool) (m : positive) :
  2 ^ 1024 <= Z.pos m ->
  binary_round_aux 53 1024 s (Z.pos m) 0 loc_Exact = S754_infinity s.
Proof.
  intros Hm.
  pose proof (digits2_pos_bounds m) as [Hlo Hhi].
  set (d := Z.pos (digits2_pos m)) in *.
  assert (Hd : 1025 <= d).
  { destruct (Z_le_gt_dec 1025 d) as [|Hgt]; [assumption|].
    assert (Z.pos m < 2 ^ 1024) by (apply digits2_pos_le; fold d; lia). lia. }
  unfold binary_round_aux. rewrite shr_fexp_eq. cbn [Zdigits2]. fold d.
  destruct (Z.max (d + 0 - 53) (-1074) - 0) as [|q|q] eqn:Hq; try lia.
  cbn [shr shr_record_of_loc].
  set (mrs := SpecFloat.iter_pos shr_1 q _).
  assert (Hmrs : 2 ^ 52 <= shr_m mrs < 2 ^ 53).
  { unfold mrs. rewrite shr_iter_div by (cbn; lia). cbn [shr_m].
    assert (Hq' : Z.pos q = d - 53) by lia.
    assert (Hpq : 0 < 2 ^ Z.pos q) by (apply Z.pow_pos_nonneg; lia).
    split.
    - apply Z.div_le_lower_bound; [lia|].
      rewrite <- Z.pow_add_r by lia.
      replace (Z.pos q + 52) with (d - 1) by lia. exact Hlo.
    - apply Z.div_lt_upper_bound; [lia|].
      rewrite <- Z.pow_add_r by lia.
      replace (Z.pos q + 53) with d by lia. exact Hhi. }
  pose proof (round_nearest_even_bounds (shr_m mrs) (loc_of_shr_record mrs)) as Hr.
  set (m1 := round_nearest_even (shr_m mrs) (loc_of_shr_record mrs)) in *.
  change (2 ^ 52) with 4503599627370496 in Hmrs.
  change (2 ^ 53) with 9007199254740992 in Hmrs.
  rewrite shr_fexp_eq.
  destruct m1 as [|p1|p1] eqn:Hm1; try lia.
  cbn [Zdigits2].
  assert (Hd1 : 53 <= Z.pos (digits2_pos p1) <= 54).
  { pose proof (digits2_pos_bounds p1) as [Hlo1 Hhi1]. split.
    - destruct (Z_le_gt_dec 53 (Z.pos (digits2_pos p1))) as [|Hgt]; [assumption|].
      assert (Z.pos p1 < 2 ^ 52) by (apply digits2_pos_le; lia).
      change (2 ^ 52) with 4503599627370496 in *. lia.
    - apply digits2_pos_le; [lia|].
      change (2 ^ 54) with 18014398509481984. lia. }
  destruct (Z.max (Z.pos (digits2_pos p1) + (0 + Z.pos q) - 53) (-1074)
            - (0 + Z.pos q)) as [|q2|q2] eqn:Hq2; try lia.
  - cbn [shr shr_record_of_loc shr_m].
    destruct (Z.leb_spec (0 + Z.pos q) (1024 - 53)); [lia|reflexivity].
  - assert (q2 = 1%positive) as -> by lia.
    cbn [shr shr_record_of_loc SpecFloat.iter_pos].
    rewrite shr_1_half by (cbn; lia). cbn [shr_m].
    assert (Hh : 2251799813685248 <= Z.pos p1 / 2).
    { apply Z.div_le_lower_bound; lia. }
    destruct (Z.pos p1 / 2) as [|h|h]; try lia.
    destruct (Z.leb_spec (0 + Z.pos q + 1) (1024 - 53)); [lia|reflexivity].
Qed.

Lemma of_int_overflow (z : Z) :
  2 ^ 1024 <= Z.abs z -> of_int z = S754_infinity (z <? 0).
Proof.
  intros Hz.
  assert (Hp : 0 < 2 ^ 1024) by (apply Z.pow_pos_nonneg; lia).
  assert (Hbig : forall s m, 2 ^ 1024 <= Z.pos m ->
                   binary_round 53 1024 s m 0 = S754_infinity s).
  { intros s m Hm. unfold binary_round.
    pose proof (digits2_pos_bounds m) as [Hlo Hhi].
    assert (Hd : 1025 <= Z.pos (digits2_pos m)).
    { destruct (Z_le_gt_dec 1025 (Z.pos (digits2_pos m))) as [|Hgt]; [assumption|].
      assert (Z.pos m < 2 ^ 1024) by (apply digits2_pos_le; lia). lia. }
    assert (Hal : shl_align m 0 (fexp 53 1024 (Z.pos (digits2_pos m) + 0)) = (m, 0)).
    { unfold shl_align, fexp, emin.
      destruct (Z.max (Z.pos (digits2_pos m) + 0 - 53) (3 - 1024 - 53) - 0)
        as [|q|q] eqn:Hq; try reflexivity. lia. }
    rewrite Hal. now apply round_aux_overflow. }
  destruct z as [|m|m]; [cbn in Hz; lia| |]; apply Hbig; lia.
Qed.

(** X12. A decimal integer of magnitude 2^1024 or more passes the
    middleware as an infinity, which is neither zero nor NaN, and which
    is found as [req.a]. *)
Theorem validation_passes_infinity
    (req : request) (res : response) (za : Z) :
  2 ^ 1024 <= Z.abs za ->
  query req !! "a"%string = Some (decimal za) ->
  ToBoolean (operand req "b") = true ->
  validation req res =
    CallNext (set_prop "b" (Num (operand req "b"))
                (set_prop "a" (Num (S754_infinity (za <? 0))) req)) res /\
  (exists req' : request,
     validation req res = CallNext req' res /\
     props req' !! "a"%string = Some (Num (S754_infinity (za <? 0)))).
Proof.
  intros Hz Qa Hb.
  assert (Hp : 0 < 2 ^ 1024) by (apply Z.pow_pos_nonneg; lia).
  assert (E : validation req res =
              CallNext (set_prop "b" (Num (operand req "b"))
                          (set_prop "a" (Num (S754_infinity (za <? 0))) req)) res).
  { apply validation_reads; auto.
    unfold operand. rewrite Qa. cbn [ToString].
    rewrite parseInt_decimal by lia. now apply of_int_overflow. }
  split; [exact E|]. eexists. split; [exact E|]. apply attached_operands.
Qed.

Lemma validation_passes_infinity_witness :
  validation (fresh_request (calc_request "/add" (decimal (2 ^ 1024)) "1"))
    fresh_response
  = CallNext
      (set_prop "b" (Num (of_int 1))
         (set_prop "a" (Num (S754_infinity false))
            (fresh_request (calc_request "/add" (decimal (2 ^ 1024)) "1"))))
      fresh_response /\
  (exists req' : request,
     validation (fresh_request (calc_request "/add" (decimal (2 ^ 1024)) "1"))
       fresh_response
     = CallNext req' fresh_response /\
     props req' !! "a"%string = Some (Num (S754_infinity false))).
Proof.
  apply (validation_passes_infinity
           (fresh_request (calc_request "/add" (decimal (2 ^ 1024)) "1"))
           fresh_response (2 ^ 1024)).
  - apply Z.leb_le. vm_compute. reflexivity.
  - reflexivity.
  - reflexivity.
Defined.

(** ** Requests without a route *)

Lemma app_dispatch_unrouted
    (la ls : value -> value -> value) (r : incoming)
    (req : request) (res : response) :
  routed r = false -> method req = in_method r -> path req = in_path r ->
  dispatch (app la ls) req res = ([], finalhandler res).
Proof.
  intros Hr Hm Hp. rewrite app_dispatch, Hm, Hp. unfold routed in Hr.
  destruct (in_method r), (on_path "/add" (in_path r)),
    (on_path "/subtract" (in_path r)); try discriminate; reflexivity.
Qed.

(** X13. With the middleware in front of the routes, validation comes
    before routing: a request that is not a GET, HEAD or OPTIONS
    request for /add or /subtract is answered 422 when [a] or [b] is
    not accepted, and 404 only when both are. *)
Theorem validated_unrouted
    (lib_add lib_subtract : value -> value -> value) (r : incoming) :
  routed r = false ->
  respond (app_with_validation lib_add lib_subtract) r
  = ([Validation],
     if (ToBoolean (operand (fresh_request r) "a")
         && ToBoolean (operand (fresh_request r) "b"))%bool
     then {| statusCode := 404; body := Some NotFoundPage |}
     else unprocessable).
Proof.
  intros Hr.
  destruct (ToBoolean (operand (fresh_request r) "a")) eqn:Ha;
    [destruct (ToBoolean (operand (fresh_request r) "b")) eqn:Hb|].
  - unfold respond, app_with_validation.
    rewrite (dispatch_use_next _ _ _ _ _ _ _ (validation_success _ _ Ha Hb)).
    now rewrite (app_dispatch_unrouted _ _ r) by (assumption || reflexivity).
  - now rewrite validated_reject by auto.
  - now rewrite validated_reject by auto.
Qed.

Lemma validated_unrouted_witness :
  respond (app_with_validation add_stub subtract_stub)
    (Incoming POST "/add" {[ "a"%string := "1"%string; "b"%string := "2"%string ]})
  = ([Validation], {| statusCode := 404; body := Some NotFoundPage |}) /\
  respond (app_with_validation add_stub subtract_stub)
    (Incoming GET "/multiply" {[ "a"%string := "x"%string ]})
  = ([Validation], unprocessable).
Proof.
  split.
  - exact (validated_unrouted add_stub subtract_stub
             (Incoming POST "/add"
                {[ "a"%string := "1"%string; "b"%string := "2"%string ]})
             eq_refl).
  - exact (validated_unrouted add_stub subtract_stub
             (Incoming GET "/multiply" {[ "a"%string := "x"%string ]})
             eq_refl).
Defined.
